(** * Rangefinder BLE peripheral: range telemetry, configuration and battery curve

    A shallow embedding of [firmware/src/battery.c], [firmware/src/range_service.c]
    and [firmware/src/main.c].  C integers are modelled as [Z] with the
    conversions of the target (ARM Cortex-M4, ILP32, little-endian) written out;
    signed [int] arithmetic is checked, an overflow being undefined in C. *)

From Stdlib Require Import ZArith NArith List Bool Lia.
From Stdlib Require Strings.Byte.
Import ListNotations.
Open Scope Z_scope.

(** ** Machine integers *)

Module CInt.

Definition INT_MIN : Z := -2147483648.
Definition INT_MAX : Z := 2147483647.

Definition in_int (z : Z) : bool := (INT_MIN <=? z) && (z <=? INT_MAX).

(** Conversion to [uint8_t] and [uint16_t]: reduction modulo 2^8 and 2^16. *)
Definition to_u8 (z : Z) : Z := z mod 256.
Definition to_u16 (z : Z) : Z := z mod 65536.

Definition is_u16 (z : Z) : Prop := 0 <= z < 65536.

(** Signed [int] arithmetic; [None] stands for an overflow (undefined in C). *)
Definition chk (z : Z) : option Z := if in_int z then Some z else None.

Definition add (a b : Z) : option Z := chk (a + b).
Definition sub (a b : Z) : option Z := chk (a - b).
Definition mul (a b : Z) : option Z := chk (a * b).
(** C division truncates toward zero: [Z.quot]. *)
Definition div (a b : Z) : option Z :=
  if b =? 0 then None else chk (Z.quot a b).

Definition and_then {A B} (m : option A) (k : A -> option B) : option B :=
  match m with
  | Some a => k a
  | None => None
  end.

End CInt.

Notation "'let?' x ':=' m 'in' k" := (CInt.and_then m (fun x => k))
  (at level 10, x name, m at level 100, k at level 200).

(** ** battery.c *)

Module Battery.

Import CInt.

(** [uint8_t battery_mv_to_pct(int mv)]: the [return] converts the [int]
    expression to [uint8_t]. *)
Definition battery_mv_to_pct (mv : Z) : option Z :=
  if mv >=? 4200 then
    Some (to_u8 100)
  else if mv >=? 4100 then
    let? d := sub mv 4100 in let? p := mul d 10 in let? q := div p 100 in
    let? r := add 90 q in Some (to_u8 r)
  else if mv >=? 3800 then
    let? d := sub mv 3800 in let? p := mul d 40 in let? q := div p 300 in
    let? r := add 50 q in Some (to_u8 r)
  else if mv >=? 3600 then
    let? d := sub mv 3600 in let? p := mul d 30 in let? q := div p 200 in
    let? r := add 20 q in Some (to_u8 r)
  else if mv >=? 3300 then
    let? d := sub mv 3300 in let? p := mul d 20 in let? q := div p 300 in
    Some (to_u8 q)
  else
    Some (to_u8 0).

(** The table of the specification (BatteryCurve, section 4.2), written from
    its words, with division truncating toward zero. *)
Definition voltage_to_percent_table (mv : Z) : Z :=
  if 4200 <=? mv then 100
  else if (4100 <=? mv) && (mv <? 4200) then 90 + Z.quot ((mv - 4100) * 10) 100
  else if (3800 <=? mv) && (mv <? 4100) then 50 + Z.quot ((mv - 3800) * 40) 300
  else if (3600 <=? mv) && (mv <? 3800) then 20 + Z.quot ((mv - 3600) * 30) 200
  else if (3300 <=? mv) && (mv <? 3600) then Z.quot ((mv - 3300) * 20) 300
  else 0.

End Battery.

(** ** Constants of the Zephyr headers the sources use
    ([zephyr/bluetooth/att.h], [zephyr/bluetooth/gatt.h]) *)

Module Zephyr.

Definition BT_ATT_ERR_INVALID_OFFSET : Z := 0x07.
Definition BT_ATT_ERR_INVALID_ATTRIBUTE_LEN : Z := 0x0d.
Definition BT_ATT_ERR_VALUE_NOT_ALLOWED : Z := 0x13.

(** [#define BT_GATT_ERR(_att_err) (-(_att_err))] *)
Definition BT_GATT_ERR (att_err : Z) : Z := - att_err.

Definition BT_GATT_CCC_NOTIFY : Z := 0x0001.

End Zephyr.

(** ** The firmware's global state and its collaborators *)

Module Firmware.

(** [struct range_config] of range_service.h, [__packed]: four [uint16_t]
    in this order, 8 bytes. *)
Record range_config : Type := mk_range_config {
  sample_interval_ms : Z;
  notify_interval_ms : Z;
  max_range_mm : Z;
  min_range_mm : Z
}.

Definition sizeof_range_config : Z := 8.

(** A connection object of the Bluetooth stack, known by its address. *)
Definition bt_conn : Type := Z.

(** The file-level variables of range_service.c ([current_range_mm],
    [active_config], [range_notify_enabled]) and of main.c ([current_conn],
    [None] for [NULL]). *)
Record globals : Type := mk_globals {
  current_range_mm : Z;
  active_config : range_config;
  range_notify_enabled : bool;
  current_conn : option bt_conn
}.

Definition set_current_range_mm (v : Z) (g : globals) : globals :=
  mk_globals v (active_config g) (range_notify_enabled g) (current_conn g).
Definition set_active_config (c : range_config) (g : globals) : globals :=
  mk_globals (current_range_mm g) c (range_notify_enabled g) (current_conn g).
Definition set_range_notify_enabled (b : bool) (g : globals) : globals :=
  mk_globals (current_range_mm g) (active_config g) b (current_conn g).
Definition set_current_conn (c : option bt_conn) (g : globals) : globals :=
  mk_globals (current_range_mm g) (active_config g) (range_notify_enabled g) c.

Inductive log_level : Type := LOG_ERR | LOG_WRN | LOG_INF.

(** The messages of the [LOG_*] calls, with their arguments. *)
Inductive log_msg : Type :=
| Range_notifications (enabled : bool)
| Rejected_sample_interval (v : Z)
| Rejected_notify_interval (v : Z)
| Rejected_min_ge_max
| Config_updated (sample notify min max : Z)
| Connection_failed (err : Z)
| Connected
| Disconnected (reason : Z)
| Advertising_restart_failed (err : Z)
| Sensor_fetch_failed (ret : Z)
| Sensor_channel_get_failed (ret : Z).

(** What the firmware asks of its collaborators, in program order. *)
Inductive event : Type :=
| Log (lvl : log_level) (m : log_msg)
| Gatt_notify (value : Z)          (* bt_gatt_notify of current_range_mm, 2 bytes *)
| Adv_start                        (* bt_le_adv_start(BT_LE_ADV_CONN, ad, sd) *)
| Conn_ref (c : bt_conn)           (* bt_conn_ref *)
| Conn_unref (c : bt_conn)         (* bt_conn_unref *)
| Sensor_sample_fetch
| Sensor_channel_get
| Msleep (ms : Z).                 (* k_msleep *)

(** Code over the globals: the result, the globals after it and the calls it
    made; [None] for undefined behaviour (signed overflow). *)
Definition M (A : Type) : Type := globals -> option (A * globals * list event).

Definition ret {A} (a : A) : M A := fun g => Some (a, g, []).

Definition bind {A B} (m : M A) (k : A -> M B) : M B :=
  fun g =>
    match m g with
    | None => None
    | Some (a, g1, t1) =>
        match k a g1 with
        | None => None
        | Some (b, g2, t2) => Some (b, g2, t1 ++ t2)
        end
    end.

Definition get : M globals := fun g => Some (g, g, []).
Definition modify (f : globals -> globals) : M unit := fun g => Some (tt, f g, []).
Definition emit (e : event) : M unit := fun g => Some (tt, g, [e]).
Definition lift {A} (o : option A) : M A :=
  fun g => match o with Some a => Some (a, g, []) | None => None end.

End Firmware.

Notation "x <- m ;; k" := (Firmware.bind m (fun x => k))
  (at level 61, m at next level, right associativity).
Notation "m ;; k" := (Firmware.bind m (fun _ => k))
  (at level 61, right associativity).

(** ** range_service.c *)

Module RangeService.

Import CInt Zephyr Firmware.

(** The bytes of a little-endian [uint16_t]. *)
Definition byte_val (b : Byte.byte) : Z := Z.of_N (Byte.to_N b).

Definition byte_of_Z (z : Z) : Byte.byte :=
  match Byte.of_N (Z.to_N (z mod 256)) with
  | Some b => b
  | None => Byte.x00
  end.

Definition u16_at (buf : list Byte.byte) (off : nat) : Z :=
  Z.lor (byte_val (nth off buf Byte.x00))
        (Z.shiftl (byte_val (nth (S off) buf Byte.x00)) 8).

Definition u16_bytes (v : Z) : list Byte.byte :=
  [byte_of_Z (Z.land v 255); byte_of_Z (Z.shiftr v 8)].

(** [const struct range_config *new_config = buf;]: the packed struct read
    from the payload, field by field at offsets 0, 2, 4 and 6. *)
Definition range_config_of_bytes (buf : list Byte.byte) : range_config :=
  {| sample_interval_ms := u16_at buf 0;
     notify_interval_ms := u16_at buf 2;
     max_range_mm := u16_at buf 4;
     min_range_mm := u16_at buf 6 |}.

(** The object representation of the struct, as [read_config] hands it to
    [bt_gatt_attr_read]. *)
Definition bytes_of_range_config (c : range_config) : list Byte.byte :=
  u16_bytes (sample_interval_ms c) ++ u16_bytes (notify_interval_ms c) ++
  u16_bytes (max_range_mm c) ++ u16_bytes (min_range_mm c).

(** The initial value of [active_config]; the two intervals come from the
    build configuration ([CONFIG_RANGE_SAMPLE_INTERVAL_MS],
    [CONFIG_RANGE_NOTIFY_INTERVAL_MS]), which is not part of the sources. *)
Definition default_config
    (CONFIG_RANGE_SAMPLE_INTERVAL_MS CONFIG_RANGE_NOTIFY_INTERVAL_MS : Z)
    : range_config :=
  {| sample_interval_ms := CONFIG_RANGE_SAMPLE_INTERVAL_MS;
     notify_interval_ms := CONFIG_RANGE_NOTIFY_INTERVAL_MS;
     max_range_mm := 1200;
     min_range_mm := 30 |}.

Definition range_ccc_changed (value : Z) : M unit :=
  modify (set_range_notify_enabled (value =? BT_GATT_CCC_NOTIFY)) ;;
  g <- get ;;
  emit (Log LOG_INF (Range_notifications (range_notify_enabled g))).

(** [write_config]: [buf] holds the [len] bytes of the payload; [offset] and
    [len] are [uint16_t], so [offset + len] is computed in [int] without
    overflow. *)
Definition write_config (buf : list Byte.byte) (offset : Z) : M Z :=
  let len := Z.of_nat (length buf) in
  if offset + len >? sizeof_range_config then
    ret (BT_GATT_ERR BT_ATT_ERR_INVALID_OFFSET)
  else if negb (len =? sizeof_range_config) then
    ret (BT_GATT_ERR BT_ATT_ERR_INVALID_ATTRIBUTE_LEN)
  else
    let new_config := range_config_of_bytes buf in
    if (sample_interval_ms new_config <? 10) ||
       (sample_interval_ms new_config >? 5000) then
      emit (Log LOG_WRN (Rejected_sample_interval (sample_interval_ms new_config))) ;;
      ret (BT_GATT_ERR BT_ATT_ERR_VALUE_NOT_ALLOWED)
    else if (notify_interval_ms new_config <? 10) ||
            (notify_interval_ms new_config >? 5000) then
      emit (Log LOG_WRN (Rejected_notify_interval (notify_interval_ms new_config))) ;;
      ret (BT_GATT_ERR BT_ATT_ERR_VALUE_NOT_ALLOWED)
    else if min_range_mm new_config >=? max_range_mm new_config then
      emit (Log LOG_WRN Rejected_min_ge_max) ;;
      ret (BT_GATT_ERR BT_ATT_ERR_VALUE_NOT_ALLOWED)
    else
      modify (set_active_config new_config) ;;
      g <- get ;;
      emit (Log LOG_INF (Config_updated
              (sample_interval_ms (active_config g))
              (notify_interval_ms (active_config g))
              (min_range_mm (active_config g))
              (max_range_mm (active_config g)))) ;;
      ret len.

(** [range_service_update]; [notify_ret] is what [bt_gatt_notify] answers. *)
Definition range_service_update (notify_ret : Z) (distance_mm : Z) : M Z :=
  modify (set_current_range_mm distance_mm) ;;
  g <- get ;;
  if negb (range_notify_enabled g) then
    ret 0
  else
    g <- get ;;
    emit (Gatt_notify (current_range_mm g)) ;;
    ret notify_ret.

(** [range_service_get_config] returns the address of [active_config], not a
    copy: what is read through it is the record stored at the time of the
    read. *)
Inductive config_ptr : Type := Addr_active_config.

Definition range_service_get_config : M config_ptr := ret Addr_active_config.

Definition load (p : config_ptr) : M range_config :=
  match p with
  | Addr_active_config => g <- get ;; ret (active_config g)
  end.

End RangeService.

(** ** main.c *)

Module Main.

Import CInt Zephyr Firmware RangeService.

(** [connected]; [bt_conn_ref] hands back the connection it was given. *)
Definition connected (conn : bt_conn) (err : Z) : M unit :=
  if negb (err =? 0) then
    emit (Log LOG_ERR (Connection_failed err))
  else
    emit (Log LOG_INF Connected) ;;
    emit (Conn_ref conn) ;;
    modify (set_current_conn (Some conn)).

(** [disconnected]; [adv_ret] is what [bt_le_adv_start] answers. *)
Definition disconnected (reason : Z) (adv_ret : Z) : M unit :=
  emit (Log LOG_INF (Disconnected reason)) ;;
  g <- get ;;
  match current_conn g with
  | Some c => emit (Conn_unref c) ;; modify (set_current_conn None)
  | None => ret tt
  end ;;
  emit Adv_start ;;
  if negb (adv_ret =? 0) then
    emit (Log LOG_ERR (Advertising_restart_failed adv_ret))
  else
    ret tt.

(** What the sensor driver answers during one [read_range_mm]: the results of
    [sensor_sample_fetch] and [sensor_channel_get] and the [struct
    sensor_value] of the latter. *)
Record sensor_reply : Type := mk_sensor_reply {
  fetch_ret : Z;
  get_ret : Z;
  val1 : Z;
  val2 : Z
}.

Definition read_range_mm (r : sensor_reply) : M Z :=
  emit Sensor_sample_fetch ;;
  if fetch_ret r <? 0 then
    emit (Log LOG_WRN (Sensor_fetch_failed (fetch_ret r))) ;;
    ret (fetch_ret r)
  else
    emit Sensor_channel_get ;;
    if get_ret r <? 0 then
      emit (Log LOG_WRN (Sensor_channel_get_failed (get_ret r))) ;;
      ret (get_ret r)
    else
      lift (let? a := mul (val1 r) 1000 in
            let? b := div (val2 r) 1000 in
            add a b).

(** One turn of the [while (1)] of [sensor_thread_fn]. *)
Definition sensor_thread_iter (r : sensor_reply) (notify_ret : Z) : M unit :=
  cfg <- range_service_get_config ;;
  distance <- read_range_mm r ;;
  (if distance >=? 0 then
     let clamped := to_u16 distance in
     c <- load cfg ;;
     let clamped := if clamped <? min_range_mm c then min_range_mm c else clamped in
     c <- load cfg ;;
     let clamped := if clamped >? max_range_mm c then max_range_mm c else clamped in
     range_service_update notify_ret clamped ;;
     ret tt
   else
     ret tt) ;;
  c <- load cfg ;;
  emit (Msleep (sample_interval_ms c)).

(** The loop, for as many turns as the environment has answers. *)
Fixpoint sensor_thread_fn (env : list (sensor_reply * Z)) : M unit :=
  match env with
  | [] => ret tt
  | (r, notify_ret) :: env' =>
      sensor_thread_iter r notify_ret ;;
      sensor_thread_fn env'
  end.

(** What can happen to the firmware, one atomic step each: a turn of the
    sensor loop, or a callback of the Bluetooth stack. *)
Inductive input : Type :=
| In_sample (r : sensor_reply) (notify_ret : Z)
| In_ccc_changed (value : Z)
| In_connected (conn : bt_conn) (err : Z)
| In_disconnected (reason : Z) (adv_ret : Z)
| In_write_config (buf : list Byte.byte) (offset : Z).

Definition step (i : input) : M unit :=
  match i with
  | In_sample r notify_ret => sensor_thread_iter r notify_ret
  | In_ccc_changed value => range_ccc_changed value
  | In_connected conn err => connected conn err
  | In_disconnected reason adv_ret => disconnected reason adv_ret
  | In_write_config buf offset => write_config buf offset ;; ret tt
  end.

Fixpoint run (ins : list input) : M unit :=
  match ins with
  | [] => ret tt
  | i :: ins' => step i ;; run ins'
  end.

(** The globals at start-up: C zero-initialises [current_range_mm],
    [range_notify_enabled] and [current_conn]. *)
Definition boot (sample_ms notify_ms : Z) : globals :=
  {| current_range_mm := 0;
     active_config := default_config sample_ms notify_ms;
     range_notify_enabled := false;
     current_conn := None |}.

(** The values carried by the notification pushes of a trace. *)
Fixpoint notified (tr : list event) : list Z :=
  match tr with
  | [] => []
  | Gatt_notify v :: tr' => v :: notified tr'
  | _ :: tr' => notified tr'
  end.

Fixpoint adv_starts (tr : list event) : nat :=
  match tr with
  | [] => O
  | Adv_start :: tr' => S (adv_starts tr')
  | _ :: tr' => adv_starts tr'
  end.

Fixpoint sensor_fetches (tr : list event) : nat :=
  match tr with
  | [] => O
  | Sensor_sample_fetch :: tr' => S (sensor_fetches tr')
  | _ :: tr' => sensor_fetches tr'
  end.

(** What [read_range_mm] hands back for a reply ([None]: overflow), and the
    calls it makes; the proofs show it is these and touches no global. *)
Definition returned (r : sensor_reply) : option Z :=
  if fetch_ret r <? 0 then Some (fetch_ret r)
  else if get_ret r <? 0 then Some (get_ret r)
  else let? a := mul (val1 r) 1000 in
       let? b := div (val2 r) 1000 in
       add a b.

Definition read_trace (r : sensor_reply) : list event :=
  if fetch_ret r <? 0 then
    [Sensor_sample_fetch; Log LOG_WRN (Sensor_fetch_failed (fetch_ret r))]
  else if get_ret r <? 0 then
    [Sensor_sample_fetch; Sensor_channel_get;
     Log LOG_WRN (Sensor_channel_get_failed (get_ret r))]
  else
    [Sensor_sample_fetch; Sensor_channel_get].

(** Lines 127-132 of main.c on the value [v] already converted to
    [uint16_t]. *)
Definition clamped_of (c : range_config) (v : Z) : Z :=
  let clamped := v in
  let clamped := if clamped <? min_range_mm c then min_range_mm c else clamped in
  let clamped := if clamped >? max_range_mm c then max_range_mm c else clamped in
  clamped.

(** The values a run of the sensor loop accepts under the record [c]: one
    per turn whose read gave a non-negative distance, converted and clamped. *)
Fixpoint accepted (c : range_config) (env : list (sensor_reply * Z)) : list Z :=
  match env with
  | [] => []
  | (r, _) :: env' =>
      match returned r with
      | Some d =>
          if d >=? 0 then clamped_of c (to_u16 d) :: accepted c env'
          else accepted c env'
      | None => []
      end
  end.

End Main.

(** ** The words of the specification *)

Module Spec.

Import CInt Zephyr Firmware RangeService.

(** The invariants of TelemetryConfig (section 3). *)
Definition config_ok (c : range_config) : Prop :=
  10 <= sample_interval_ms c <= 5000 /\
  10 <= notify_interval_ms c <= 5000 /\
  min_range_mm c < max_range_mm c.

(** Every field fits its [uint16_t]. *)
Definition config_wf (c : range_config) : Prop :=
  is_u16 (sample_interval_ms c) /\ is_u16 (notify_interval_ms c) /\
  is_u16 (max_range_mm c) /\ is_u16 (min_range_mm c).

(** The validation rules, in the order section 4.1 gives them. *)
Inductive rule : Type :=
| Sample_interval_range
| Notify_interval_range
| Min_below_max.

Definition violates (r : rule) (c : range_config) : Prop :=
  match r with
  | Sample_interval_range => ~ 10 <= sample_interval_ms c <= 5000
  | Notify_interval_range => ~ 10 <= notify_interval_ms c <= 5000
  | Min_below_max => ~ min_range_mm c < max_range_mm c
  end.

Definition rule_before (r1 r2 : rule) : Prop :=
  match r1, r2 with
  | Sample_interval_range, (Notify_interval_range | Min_below_max) => True
  | Notify_interval_range, Min_below_max => True
  | _, _ => False
  end.

(** [r] is the first rule, in that order, that [c] violates. *)
Definition first_violation (c : range_config) (r : rule) : Prop :=
  violates r c /\ forall r', rule_before r' r -> ~ violates r' c.

(** The warning the handler logs for a rule. *)
Definition rejection_log (r : rule) (c : range_config) : log_msg :=
  match r with
  | Sample_interval_range => Rejected_sample_interval (sample_interval_ms c)
  | Notify_interval_range => Rejected_notify_interval (notify_interval_ms c)
  | Min_below_max => Rejected_min_ge_max
  end.

(** Clamping (glossary): an out-of-bound value is replaced by the nearest
    bound. *)
Definition clamp (lo hi v : Z) : Z :=
  if v <? lo then lo else if hi <? v then hi else v.

(** Section 4.1 as claimed: some assignment of reason codes to rules, a
    different code for each rule, is what a rejected full-length write
    returns for the first rule its candidate violates, the stored record
    staying as it was. *)
Definition distinct_reason_per_rule : Prop :=
  exists reason : rule -> Z,
    (forall r1 r2, reason r1 = reason r2 -> r1 = r2) /\
    forall (g : globals) (buf : list Byte.byte) (r : rule),
      length buf = 8%nat ->
      first_violation (range_config_of_bytes buf) r ->
      exists tr, write_config buf 0 g = Some (reason r, g, tr).

End Spec.

(** ** battery.c: the ADC side *)

Module BatteryAdc.

Import CInt.

Definition ADC_RESOLUTION : Z := 12.
Definition ADC_CHANNEL : Z := 5.
Definition DIVIDER_RATIO : Z := 2.
Definition ADC_FULL_SCALE_MV : Z := 3600.

(** [ENODEV] of errno.h. *)
Definition ENODEV : Z := 19.

Inductive battery_msg : Type :=
| Adc_not_ready
| Adc_setup_failed (ret : Z)
| Adc_initialized (channel : Z)
| Adc_read_failed (ret : Z).

(** The calls of battery.c and of the battery thread, in program order. *)
Inductive battery_event : Type :=
| Battery_log_err (m : battery_msg)
| Battery_log_inf (m : battery_msg)
| Battery_log_dbg (mv pct : Z)     (* LOG_DBG("Battery: %dmV (%u%%)") *)
| Adc_channel_setup
| Adc_read
| Bas_set_battery_level (pct : Z)  (* bt_bas_set_battery_level *)
| Sleep_seconds (s : Z).           (* k_sleep(K_SECONDS(s)) *)

(** [battery_init]; [ready] is what [device_is_ready(adc_dev)] answers and
    [setup_ret] what [adc_channel_setup] answers. *)
Definition battery_init (ready : bool) (setup_ret : Z) : Z * list battery_event :=
  if negb ready then
    (- ENODEV, [Battery_log_err Adc_not_ready])
  else
    let ret := setup_ret in
    if ret <? 0 then
      (ret, [Adc_channel_setup; Battery_log_err (Adc_setup_failed ret)])
    else
      (0, [Adc_channel_setup; Battery_log_inf (Adc_initialized ADC_CHANNEL)]).

(** What the ADC driver answers to one [adc_read]: its result and the
    [int16_t] it left in [adc_buffer]. *)
Record adc_reply : Type := mk_adc_reply {
  adc_ret : Z;
  adc_buffer : Z
}.

(** [battery_read_mv]; the arithmetic is [int32_t], checked. *)
Definition battery_read_mv (a : adc_reply) : option (Z * list battery_event) :=
  let ret := adc_ret a in
  if ret <? 0 then
    Some (ret, [Adc_read; Battery_log_err (Adc_read_failed ret)])
  else
    let mv := adc_buffer a in
    let mv := if mv <? 0 then 0 else mv in
    let? x := mul mv ADC_FULL_SCALE_MV in
    let? y := mul x DIVIDER_RATIO in
    let? mv := div y (Z.shiftl 1 ADC_RESOLUTION) in
    Some (mv, [Adc_read]).

End BatteryAdc.

(** ** range_service.c: the read handlers and the initialisation *)

Module RangeServiceRead.

Import CInt Zephyr Firmware RangeService.

(** [read_range] and [read_config] hand the stored object to the stack's
    [bt_gatt_attr_read], which is not part of the sources and is taken as a
    parameter: it gets the length and offset asked for and the bytes of the
    value ([sizeof] is their number). *)
Definition read_range {R : Type}
    (bt_gatt_attr_read : Z -> Z -> list Byte.byte -> R) (len offset : Z) : M R :=
  g <- get ;;
  ret (bt_gatt_attr_read len offset (u16_bytes (current_range_mm g))).

Definition read_config {R : Type}
    (bt_gatt_attr_read : Z -> Z -> list Byte.byte -> R) (len offset : Z) : M R :=
  g <- get ;;
  ret (bt_gatt_attr_read len offset (bytes_of_range_config (active_config g))).

End RangeServiceRead.

(** ** main.c: the battery thread and [main] *)

Module MainBoot.

Import CInt Zephyr Firmware Battery BatteryAdc RangeService Main.

(** One turn of the [while (1)] of [battery_thread_fn]; [interval_s] is
    [CONFIG_BATTERY_SAMPLE_INTERVAL_S] of the build configuration. *)
Definition battery_thread_iter (interval_s : Z) (a : adc_reply)
    : option (list battery_event) :=
  match battery_read_mv a with
  | None => None
  | Some (mv, t) =>
      if mv >? 0 then
        match battery_mv_to_pct mv with
        | None => None
        | Some pct =>
            Some (t ++ [Bas_set_battery_level pct; Battery_log_dbg mv pct]
                    ++ [Sleep_seconds interval_s])
        end
      else
        Some (t ++ [Sleep_seconds interval_s])
  end.

Fixpoint battery_thread_fn (interval_s : Z) (env : list adc_reply)
    : option (list battery_event) :=
  match env with
  | [] => Some []
  | a :: env' =>
      match battery_thread_iter interval_s a with
      | None => None
      | Some t =>
          match battery_thread_fn interval_s env' with
          | None => None
          | Some t' => Some (t ++ t')
          end
      end
  end.

(** The levels handed to the Battery Service in a trace. *)
Fixpoint levels (tr : list battery_event) : list Z :=
  match tr with
  | [] => []
  | Bas_set_battery_level pct :: tr' => pct :: levels tr'
  | _ :: tr' => levels tr'
  end.

Inductive thread : Type := Sensor_thread | Battery_thread.

Inductive priority : Type := K_PRIO_COOP (p : Z) | K_PRIO_PREEMPT (p : Z).

Inductive main_msg : Type :=
| Starting
| Sensor_not_ready
| Sensor_ready
| Battery_init_failed (err : Z)
| Range_service_initialized
| Range_service_init_failed (err : Z)
| Bluetooth_init_failed (err : Z)
| Bluetooth_initialized
| Advertising_failed (err : Z)
| Advertising_as_device_name
| Running.

Inductive main_event : Type :=
| Main_log (lvl : log_level) (m : main_msg)
| Device_is_ready_range_sensor
| In_battery_init (e : battery_event)
| Bt_enable
| Main_adv_start                    (* bt_le_adv_start(BT_LE_ADV_CONN, ad, sd) *)
| Thread_create (t : thread) (stack_size : Z) (prio : priority)
| Thread_name_set (t : thread).

(** What the collaborators answer during [main]. *)
Record main_env : Type := mk_main_env {
  sensor_ready : bool;               (* device_is_ready(range_sensor) *)
  adc_ready : bool;                  (* device_is_ready(adc_dev) *)
  adc_setup_ret : Z;                 (* adc_channel_setup *)
  bt_enable_ret : Z;                 (* bt_enable *)
  adv_start_ret : Z                  (* bt_le_adv_start *)
}.

Definition range_service_init : Z * list main_event :=
  (0, [Main_log LOG_INF Range_service_initialized]).

Definition main (e : main_env) : Z * list main_event :=
  let t0 := [Main_log LOG_INF Starting; Device_is_ready_range_sensor] in
  if negb (sensor_ready e) then
    (- ENODEV, t0 ++ [Main_log LOG_ERR Sensor_not_ready])
  else
    let t1 := t0 ++ [Main_log LOG_INF Sensor_ready] in
    let (err, tb) := battery_init (adc_ready e) (adc_setup_ret e) in
    let t2 := t1 ++ map In_battery_init tb ++
              (if negb (err =? 0) then [Main_log LOG_WRN (Battery_init_failed err)]
               else []) in
    let (err, tr) := range_service_init in
    let t3 := t2 ++ tr in
    if negb (err =? 0) then
      (err, t3 ++ [Main_log LOG_ERR (Range_service_init_failed err)])
    else
      let err := bt_enable_ret e in
      let t4 := t3 ++ [Bt_enable] in
      if negb (err =? 0) then
        (err, t4 ++ [Main_log LOG_ERR (Bluetooth_init_failed err)])
      else
        let t5 := t4 ++ [Main_log LOG_INF Bluetooth_initialized] in
        let err := adv_start_ret e in
        let t6 := t5 ++ [Main_adv_start] in
        if negb (err =? 0) then
          (err, t6 ++ [Main_log LOG_ERR (Advertising_failed err)])
        else
          (0, t6 ++ [Main_log LOG_INF Advertising_as_device_name;
                     Thread_create Sensor_thread 2048 (K_PRIO_COOP 7);
                     Thread_name_set Sensor_thread;
                     Thread_create Battery_thread 1024 (K_PRIO_PREEMPT 10);
                     Thread_name_set Battery_thread;
                     Main_log LOG_INF Running]).

(** The threads a trace of [main] creates, in order. *)
Fixpoint spawned (tr : list main_event) : list thread :=
  match tr with
  | [] => []
  | Thread_create t _ _ :: tr' => t :: spawned tr'
  | _ :: tr' => spawned tr'
  end.

Fixpoint count_event (p : main_event -> bool) (tr : list main_event) : nat :=
  match tr with
  | [] => O
  | e :: tr' => if p e then S (count_event p tr') else count_event p tr'
  end.

Definition is_bt_enable (e : main_event) : bool :=
  match e with Bt_enable => true | _ => false end.

Definition is_adv_start (e : main_event) : bool :=
  match e with Main_adv_start => true | _ => false end.

End MainBoot.

(** ** Vocabulary for the runs of the firmware *)

Module Runs.

Import CInt Zephyr Firmware RangeService Main.

(** The sensor replies of a run never make [read_range_mm] overflow. *)
Definition input_defined (i : input) : Prop :=
  match i with
  | In_sample r _ => returned r <> None
  | _ => True
  end.

Definition is_write (i : input) : bool :=
  match i with
  | In_write_config _ _ => true
  | _ => false
  end.

Fixpoint conn_refs (tr : list event) : nat :=
  match tr with
  | [] => O
  | Conn_ref _ :: tr' => S (conn_refs tr')
  | _ :: tr' => conn_refs tr'
  end.

Fixpoint conn_unrefs (tr : list event) : nat :=
  match tr with
  | [] => O
  | Conn_unref _ :: tr' => S (conn_unrefs tr')
  | _ :: tr' => conn_unrefs tr'
  end.

(** One reference is held exactly while [current_conn] is set. *)
Definition held (g : globals) : nat :=
  match current_conn g with
  | Some _ => 1%nat
  | None => O
  end.

(** The driver's encoding of a distance of [mm] millimetres as a [struct
    sensor_value]: whole metres and millionths of a metre (main.c, lines
    101-105). *)
Definition sensor_value_of_mm (mm : Z) : sensor_reply :=
  {| fetch_ret := 0; get_ret := 0;
     val1 := mm / 1000; val2 := (mm mod 1000) * 1000 |}.

(** The same globals with another [notify_interval_ms]. *)
Definition with_notify_interval (n : Z) (g : globals) : globals :=
  set_active_config
    {| sample_interval_ms := sample_interval_ms (active_config g);
       notify_interval_ms := n;
       max_range_mm := max_range_mm (active_config g);
       min_range_mm := min_range_mm (active_config g) |} g.

(** The tests a payload passes to be accepted at offset 0 (range_service.c,
    lines 59-83), and the record in force after a series of writes at
    offset 0. *)
Definition acceptable (buf : list Byte.byte) : bool :=
  let c := range_config_of_bytes buf in
  (length buf =? 8)%nat &&
  negb ((sample_interval_ms c <? 10) || (sample_interval_ms c >? 5000)) &&
  negb ((notify_interval_ms c <? 10) || (notify_interval_ms c >? 5000)) &&
  negb (min_range_mm c >=? max_range_mm c).

Fixpoint last_accepted (c0 : range_config) (bufs : list (list Byte.byte))
    : range_config :=
  match bufs with
  | [] => c0
  | buf :: bufs' =>
      last_accepted (if acceptable buf then range_config_of_bytes buf else c0) bufs'
  end.

End Runs.

(** ** Proofs: battery curve *)

Module BatteryFacts.

Import CInt Battery.

Lemma chk_small (z : Z) : -100000 <= z <= 100000 -> chk z = Some z.
Proof.
  intros H. unfold chk, in_int, INT_MIN, INT_MAX.
  replace (_ && _) with true; [reflexivity|].
  symmetry. apply andb_true_iff. split; apply Z.leb_le; lia.
Qed.

(** One interpolated segment: no overflow, and the [uint8_t] conversion keeps
    the value. *)
Lemma segment_ok (mv base k den off : Z) :
  0 <= mv - base <= 300 -> 0 < k <= 40 -> 100 <= den -> 0 <= off <= 90 ->
  off + (mv - base) * k / den <= 255 ->
  (let? d := sub mv base in let? p := mul d k in let? q := div p den in
   let? r := add off q in Some (to_u8 r)) = Some (off + Z.quot ((mv - base) * k) den).
Proof.
  intros Hd Hk Hden Hoff Hle.
  assert (Hp : 0 <= (mv - base) * k <= 12000) by nia.
  assert (Hq : Z.quot ((mv - base) * k) den = (mv - base) * k / den)
    by (apply Z.quot_div_nonneg; lia).
  assert (Hq0 : 0 <= (mv - base) * k / den <= 12000).
  { split; [apply Z.div_pos; lia|].
    apply Z.le_trans with ((mv - base) * k); [|lia].
    apply Z.div_le_upper_bound; nia. }
  unfold sub. rewrite chk_small by lia. cbn [and_then].
  unfold mul. rewrite chk_small by lia. cbn [and_then].
  unfold div. replace (den =? 0) with false by (symmetry; apply Z.eqb_neq; lia).
  rewrite Hq, chk_small by lia. cbn [and_then].
  unfold add. rewrite chk_small by lia. cbn [and_then].
  unfold to_u8. rewrite Z.mod_small by lia. reflexivity.
Qed.

Lemma quot_bounds (a k den hi : Z) :
  0 <= a -> 0 < k -> 0 < den -> a * k < (hi + 1) * den ->
  0 <= Z.quot (a * k) den <= hi.
Proof.
  intros Ha Hk Hden Hlt.
  rewrite Z.quot_div_nonneg by nia.
  split; [apply Z.div_pos; nia|].
  apply Z.lt_succ_r. apply Z.div_lt_upper_bound; lia.
Qed.

(** The code computes the table, on every integer. *)
Lemma battery_mv_to_pct_eq (mv : Z) :
  battery_mv_to_pct mv = Some (voltage_to_percent_table mv).
Proof.
  unfold battery_mv_to_pct, voltage_to_percent_table.
  destruct (Z.geb_spec mv 4200) as [H1|H1].
  { replace (4200 <=? mv) with true by (symmetry; apply Z.leb_le; lia).
    reflexivity. }
  replace (4200 <=? mv) with false by (symmetry; apply Z.leb_gt; lia).
  replace (mv <? 4200) with true by (symmetry; apply Z.ltb_lt; lia).
  rewrite andb_true_r.
  destruct (Z.geb_spec mv 4100) as [H2|H2].
  { replace (4100 <=? mv) with true by (symmetry; apply Z.leb_le; lia).
    pose proof (quot_bounds (mv - 4100) 10 100 9) as Hb.
    assert (Hq : Z.quot ((mv - 4100) * 10) 100 = (mv - 4100) * 10 / 100)
      by (apply Z.quot_div_nonneg; lia).
    rewrite Hq in Hb.
    apply segment_ok with (off := 90); lia. }
  replace (4100 <=? mv) with false by (symmetry; apply Z.leb_gt; lia).
  replace (mv <? 4100) with true by (symmetry; apply Z.ltb_lt; lia).
  rewrite andb_true_r.
  destruct (Z.geb_spec mv 3800) as [H3|H3].
  { replace (3800 <=? mv) with true by (symmetry; apply Z.leb_le; lia).
    pose proof (quot_bounds (mv - 3800) 40 300 39) as Hb.
    assert (Hq : Z.quot ((mv - 3800) * 40) 300 = (mv - 3800) * 40 / 300)
      by (apply Z.quot_div_nonneg; lia).
    rewrite Hq in Hb.
    apply segment_ok with (off := 50); lia. }
  replace (3800 <=? mv) with false by (symmetry; apply Z.leb_gt; lia).
  replace (mv <? 3800) with true by (symmetry; apply Z.ltb_lt; lia).
  rewrite andb_true_r.
  destruct (Z.geb_spec mv 3600) as [H4|H4].
  { replace (3600 <=? mv) with true by (symmetry; apply Z.leb_le; lia).
    pose proof (quot_bounds (mv - 3600) 30 200 29) as Hb.
    assert (Hq : Z.quot ((mv - 3600) * 30) 200 = (mv - 3600) * 30 / 200)
      by (apply Z.quot_div_nonneg; lia).
    rewrite Hq in Hb.
    apply segment_ok with (off := 20); lia. }
  replace (3600 <=? mv) with false by (symmetry; apply Z.leb_gt; lia).
  replace (mv <? 3600) with true by (symmetry; apply Z.ltb_lt; lia).
  rewrite andb_true_r.
  destruct (Z.geb_spec mv 3300) as [H5|H5].
  { replace (3300 <=? mv) with true by (symmetry; apply Z.leb_le; lia).
    pose proof (quot_bounds (mv - 3300) 20 300 19) as Hb.
    assert (Hq : Z.quot ((mv - 3300) * 20) 300 = (mv - 3300) * 20 / 300)
      by (apply Z.quot_div_nonneg; lia).
    rewrite Hq in Hb.
    unfold sub. rewrite chk_small by lia. cbn [and_then].
    unfold mul. rewrite chk_small by lia. cbn [and_then].
    unfold div. change (300 =? 0) with false. cbv iota.
    rewrite Hq, chk_small by lia. cbn [and_then].
    unfold to_u8. rewrite Z.mod_small by lia. reflexivity. }
  replace (3300 <=? mv) with false by (symmetry; apply Z.leb_gt; lia).
  reflexivity.
Qed.

(** The table by segments. *)
Lemma table_segments (mv : Z) :
  (4200 <= mv /\ voltage_to_percent_table mv = 100) \/
  (4100 <= mv < 4200 /\
   voltage_to_percent_table mv = 90 + Z.quot ((mv - 4100) * 10) 100) \/
  (3800 <= mv < 4100 /\
   voltage_to_percent_table mv = 50 + Z.quot ((mv - 3800) * 40) 300) \/
  (3600 <= mv < 3800 /\
   voltage_to_percent_table mv = 20 + Z.quot ((mv - 3600) * 30) 200) \/
  (3300 <= mv < 3600 /\
   voltage_to_percent_table mv = Z.quot ((mv - 3300) * 20) 300) \/
  (mv < 3300 /\ voltage_to_percent_table mv = 0).
Proof.
  unfold voltage_to_percent_table.
  destruct (Z.leb_spec 4200 mv); [left; split; [lia|reflexivity]|right].
  replace (mv <? 4200) with true by (symmetry; apply Z.ltb_lt; lia).
  rewrite andb_true_r.
  destruct (Z.leb_spec 4100 mv); [left; split; [lia|reflexivity]|right].
  replace (mv <? 4100) with true by (symmetry; apply Z.ltb_lt; lia).
  rewrite andb_true_r.
  destruct (Z.leb_spec 3800 mv); [left; split; [lia|reflexivity]|right].
  replace (mv <? 3800) with true by (symmetry; apply Z.ltb_lt; lia).
  rewrite andb_true_r.
  destruct (Z.leb_spec 3600 mv); [left; split; [lia|reflexivity]|right].
  replace (mv <? 3600) with true by (symmetry; apply Z.ltb_lt; lia).
  rewrite andb_true_r.
  destruct (Z.leb_spec 3300 mv); [left|right]; split; (lia || reflexivity).
Qed.

Ltac by_segments mv :=
  let H := fresh "Hseg" in
  let E := fresh "Eseg" in
  destruct (table_segments mv)
    as [[H E]|[[H E]|[[H E]|[[H E]|[[H E]|[H E]]]]]];
  rewrite E; clear E.

Lemma table_bounds (mv : Z) : 0 <= voltage_to_percent_table mv <= 100.
Proof.
  by_segments mv; Z.to_euclidean_division_equations; lia.
Qed.

Lemma table_monotone (mv1 mv2 : Z) :
  mv1 <= mv2 -> voltage_to_percent_table mv1 <= voltage_to_percent_table mv2.
Proof.
  intros Hle.
  by_segments mv1; by_segments mv2; try lia;
    Z.to_euclidean_division_equations; lia.
Qed.

End BatteryFacts.

(** ** Proofs: bytes and the configuration record *)

Module BytesFacts.

Import CInt Zephyr Firmware RangeService Spec.

Lemma byte_val_range (b : Byte.byte) : 0 <= byte_val b < 256.
Proof.
  unfold byte_val. pose proof (Byte.to_N_bounded b). lia.
Qed.

Lemma byte_of_Z_val (b : Byte.byte) : byte_of_Z (byte_val b) = b.
Proof.
  unfold byte_of_Z. pose proof (byte_val_range b) as Hr.
  rewrite Z.mod_small by lia.
  unfold byte_val. rewrite N2Z.id, Byte.of_to_N. reflexivity.
Qed.

Lemma byte_val_of_Z (z : Z) : byte_val (byte_of_Z z) = z mod 256.
Proof.
  unfold byte_of_Z, byte_val.
  pose proof (Z.mod_pos_bound z 256 ltac:(lia)) as Hr.
  destruct (Byte.of_N (Z.to_N (z mod 256))) as [b|] eqn:E.
  - apply Byte.to_of_N in E. rewrite E. lia.
  - apply Byte.of_N_None_iff in E. lia.
Qed.

(** Two bytes put together with [|] and [<<] are [lo + 256 * hi]. *)
Lemma lor_shiftl_bytes (lo hi : Z) :
  0 <= lo < 256 -> 0 <= hi -> Z.lor lo (Z.shiftl hi 8) = lo + 256 * hi.
Proof.
  intros Hlo Hhi.
  rewrite Z.shiftl_mul_pow2 by lia. change (2 ^ 8) with 256.
  rewrite <- Z.lxor_lor, <- Z.add_nocarry_lxor; try lia.
  all: apply Z.bits_inj'; intros n Hn; rewrite Z.land_spec, Z.bits_0.
  all: destruct (Z.ltb_spec n 8) as [Hlt|Hge].
  all: try (replace (hi * 256) with (Z.shiftl hi 8)
              by (rewrite Z.shiftl_mul_pow2 by lia; reflexivity);
            rewrite Z.shiftl_spec_low by lia; apply andb_false_r).
  all: replace (Z.testbit lo n) with false; [reflexivity|].
  all: symmetry; destruct (Z.eq_dec lo 0) as [->|Hnz];
       [apply Z.bits_0|apply Z.bits_above_log2; [lia|]].
  all: apply Z.lt_le_trans with 8; [|lia];
       apply Z.log2_lt_pow2; [lia|change (2 ^ 8) with 256; lia].
Qed.

Lemma u16_at_eq (buf : list Byte.byte) (off : nat) :
  u16_at buf off =
  byte_val (nth off buf Byte.x00) + 256 * byte_val (nth (S off) buf Byte.x00).
Proof.
  unfold u16_at.
  apply lor_shiftl_bytes; apply byte_val_range.
Qed.

Lemma u16_at_range (buf : list Byte.byte) (off : nat) : is_u16 (u16_at buf off).
Proof.
  rewrite u16_at_eq. unfold is_u16.
  pose proof (byte_val_range (nth off buf Byte.x00)).
  pose proof (byte_val_range (nth (S off) buf Byte.x00)). lia.
Qed.

Lemma u16_bytes_val (v : Z) :
  is_u16 v ->
  exists lo hi, u16_bytes v = [lo; hi] /\ byte_val lo + 256 * byte_val hi = v.
Proof.
  unfold is_u16. intros Hv. unfold u16_bytes.
  eexists; eexists; split; [reflexivity|].
  rewrite !byte_val_of_Z.
  change 255 with (Z.ones 8). rewrite Z.land_ones by lia.
  rewrite Z.shiftr_div_pow2 by lia. change (2 ^ 8) with 256.
  rewrite Z.mod_mod by lia.
  assert (0 <= v / 256 < 256)
    by (split; [apply Z.div_pos; lia|apply Z.div_lt_upper_bound; lia]).
  rewrite (Z.mod_small (v / 256)) by lia.
  pose proof (Z.div_mod v 256 ltac:(lia)). lia.
Qed.

Lemma u16_bytes_of_bytes (lo hi : Byte.byte) :
  u16_bytes (byte_val lo + 256 * byte_val hi) = [lo; hi].
Proof.
  pose proof (byte_val_range lo) as Hl. pose proof (byte_val_range hi) as Hh.
  unfold u16_bytes.
  change 255 with (Z.ones 8). rewrite Z.land_ones by lia.
  rewrite Z.shiftr_div_pow2 by lia. change (2 ^ 8) with 256.
  replace ((byte_val lo + 256 * byte_val hi) mod 256) with (byte_val lo)
    by (apply (Z.mod_unique_pos _ 256 (byte_val hi)); lia).
  replace ((byte_val lo + 256 * byte_val hi) / 256) with (byte_val hi)
    by (apply (Z.div_unique_pos _ 256 (byte_val hi) (byte_val lo)); lia).
  rewrite !byte_of_Z_val. reflexivity.
Qed.

(** Reading back the object representation of a record gives the record. *)
Lemma range_config_of_bytes_of_range_config (c : range_config) :
  config_wf c -> range_config_of_bytes (bytes_of_range_config c) = c.
Proof.
  destruct c as [s n x m]. unfold config_wf.
  cbn [sample_interval_ms notify_interval_ms max_range_mm min_range_mm].
  intros (Hs & Hn & Hx & Hm).
  destruct (u16_bytes_val s Hs) as (s0 & s1 & Es & Vs).
  destruct (u16_bytes_val n Hn) as (n0 & n1 & En & Vn).
  destruct (u16_bytes_val x Hx) as (x0 & x1 & Ex & Vx).
  destruct (u16_bytes_val m Hm) as (m0 & m1 & Em & Vm).
  change (bytes_of_range_config (mk_range_config s n x m))
    with (u16_bytes s ++ u16_bytes n ++ u16_bytes x ++ u16_bytes m).
  rewrite Es, En, Ex, Em. unfold range_config_of_bytes.
  rewrite !u16_at_eq. cbn [app nth].
  congruence.
Qed.

Lemma bytes_of_range_config_length (c : range_config) :
  length (bytes_of_range_config c) = 8%nat.
Proof. reflexivity. Qed.

(** The object representation of the record read from an 8-byte payload is
    the payload. *)
Lemma bytes_of_range_config_of_bytes (buf : list Byte.byte) :
  length buf = 8%nat -> bytes_of_range_config (range_config_of_bytes buf) = buf.
Proof.
  intros Hlen.
  do 8 (destruct buf as [|? buf]; [discriminate Hlen|]).
  destruct buf; [|discriminate Hlen].
  match goal with
  | |- bytes_of_range_config (range_config_of_bytes ?l) = _ =>
      change (bytes_of_range_config (range_config_of_bytes l))
        with (u16_bytes (u16_at l 0) ++ u16_bytes (u16_at l 2) ++
              u16_bytes (u16_at l 4) ++ u16_bytes (u16_at l 6))
  end.
  rewrite !u16_at_eq. cbn [nth]. rewrite !u16_bytes_of_bytes. reflexivity.
Qed.

End BytesFacts.

(** ** Proofs: the configuration write handler *)

Module ConfigFacts.

Import CInt Zephyr Firmware RangeService Main Spec BytesFacts.

Lemma interval_test_false (v : Z) :
  10 <= v <= 5000 -> (v <? 10) || (v >? 5000) = false.
Proof.
  intros H. rewrite Z.gtb_ltb. apply orb_false_iff.
  split; apply Z.ltb_ge; lia.
Qed.

Lemma interval_test_true (v : Z) :
  ~ 10 <= v <= 5000 -> (v <? 10) || (v >? 5000) = true.
Proof.
  intros H. rewrite Z.gtb_ltb. apply orb_true_iff.
  destruct (Z.ltb_spec v 10); [now left|right; apply Z.ltb_lt; lia].
Qed.

Lemma order_test_false (lo hi : Z) : lo < hi -> (lo >=? hi) = false.
Proof. intros H. rewrite Z.geb_leb. apply Z.leb_gt. exact H. Qed.

Lemma order_test_true (lo hi : Z) : ~ lo < hi -> (lo >=? hi) = true.
Proof. intros H. rewrite Z.geb_leb. apply Z.leb_le. lia. Qed.

(** A full-length write at offset 0 passes both length tests. *)
Ltac full_length Hlen :=
  unfold write_config; rewrite Hlen;
  change (0 + Z.of_nat 8 >? sizeof_range_config) with false;
  change (negb (Z.of_nat 8 =? sizeof_range_config)) with false;
  cbv iota.

Lemma write_config_rejects_sample (g : globals) (buf : list Byte.byte) :
  length buf = 8%nat ->
  let c := range_config_of_bytes buf in
  ~ 10 <= sample_interval_ms c <= 5000 ->
  write_config buf 0 g =
  Some (BT_GATT_ERR BT_ATT_ERR_VALUE_NOT_ALLOWED, g,
        [Log LOG_WRN (Rejected_sample_interval (sample_interval_ms c))]).
Proof.
  intros Hlen c Hs. full_length Hlen. fold c.
  rewrite (interval_test_true _ Hs). reflexivity.
Qed.

Lemma write_config_rejects_notify (g : globals) (buf : list Byte.byte) :
  length buf = 8%nat ->
  let c := range_config_of_bytes buf in
  10 <= sample_interval_ms c <= 5000 ->
  ~ 10 <= notify_interval_ms c <= 5000 ->
  write_config buf 0 g =
  Some (BT_GATT_ERR BT_ATT_ERR_VALUE_NOT_ALLOWED, g,
        [Log LOG_WRN (Rejected_notify_interval (notify_interval_ms c))]).
Proof.
  intros Hlen c Hs Hn. full_length Hlen. fold c.
  rewrite (interval_test_false _ Hs), (interval_test_true _ Hn). reflexivity.
Qed.

Lemma write_config_rejects_order (g : globals) (buf : list Byte.byte) :
  length buf = 8%nat ->
  let c := range_config_of_bytes buf in
  10 <= sample_interval_ms c <= 5000 ->
  10 <= notify_interval_ms c <= 5000 ->
  ~ min_range_mm c < max_range_mm c ->
  write_config buf 0 g =
  Some (BT_GATT_ERR BT_ATT_ERR_VALUE_NOT_ALLOWED, g,
        [Log LOG_WRN Rejected_min_ge_max]).
Proof.
  intros Hlen c Hs Hn Hm. full_length Hlen. fold c.
  rewrite (interval_test_false _ Hs), (interval_test_false _ Hn),
    (order_test_true _ _ Hm). reflexivity.
Qed.

Lemma write_config_accepts (g : globals) (buf : list Byte.byte) :
  length buf = 8%nat ->
  let c := range_config_of_bytes buf in
  config_ok c ->
  write_config buf 0 g =
  Some (sizeof_range_config, set_active_config c g,
        [Log LOG_INF (Config_updated (sample_interval_ms c) (notify_interval_ms c)
                        (min_range_mm c) (max_range_mm c))]).
Proof.
  intros Hlen c (Hs & Hn & Hm). full_length Hlen. fold c.
  rewrite (interval_test_false _ Hs), (interval_test_false _ Hn),
    (order_test_false _ _ Hm). reflexivity.
Qed.

(** A candidate that breaks an invariant has a first broken rule. *)
Lemma first_violation_exists (c : range_config) :
  ~ config_ok c -> exists r, first_violation c r.
Proof.
  intros Hbad. unfold first_violation.
  destruct (Z_le_dec 10 (sample_interval_ms c)) as [Hs1|Hs1];
    [destruct (Z_le_dec (sample_interval_ms c) 5000) as [Hs2|Hs2]|].
  2,3: exists Sample_interval_range; split;
       [cbn; lia|intros [] Hb; destruct Hb].
  destruct (Z_le_dec 10 (notify_interval_ms c)) as [Hn1|Hn1];
    [destruct (Z_le_dec (notify_interval_ms c) 5000) as [Hn2|Hn2]|].
  2,3: exists Notify_interval_range; split;
       [cbn; lia|intros [] Hb; destruct Hb; cbn; lia].
  exists Min_below_max. split.
  - cbn. intros Hm. apply Hbad. unfold config_ok. lia.
  - intros [] Hb; destruct Hb; cbn; lia.
Qed.

Lemma first_violation_not_ok (c : range_config) (r : rule) :
  first_violation c r -> ~ config_ok c.
Proof.
  intros [Hv _] (Hs & Hn & Hm). destruct r; cbn [violates] in Hv; lia.
Qed.

(** What a full-length write does when [r] is the first rule broken. *)
Lemma write_config_first_violation (g : globals) (buf : list Byte.byte) (r : rule) :
  length buf = 8%nat ->
  first_violation (range_config_of_bytes buf) r ->
  write_config buf 0 g =
  Some (BT_GATT_ERR BT_ATT_ERR_VALUE_NOT_ALLOWED, g,
        [Log LOG_WRN (rejection_log r (range_config_of_bytes buf))]).
Proof.
  intros Hlen [Hv Hfirst]. destruct r; cbn [rejection_log violates] in *.
  - apply write_config_rejects_sample; assumption.
  - pose proof (Hfirst Sample_interval_range I) as Hs. cbn [violates] in Hs.
    apply write_config_rejects_notify; [assumption|lia|assumption].
  - pose proof (Hfirst Sample_interval_range I) as Hs.
    pose proof (Hfirst Notify_interval_range I) as Hn.
    cbn [violates] in Hs, Hn.
    apply write_config_rejects_order; [assumption|lia|lia|assumption].
Qed.

(** A write whose payload is not 8 bytes long stops at one of the two
    length tests. *)
Lemma write_config_bad_length (g : globals) (buf : list Byte.byte) (offset : Z) :
  length buf <> 8%nat ->
  write_config buf offset g =
  Some (BT_GATT_ERR (if offset + Z.of_nat (length buf) >? sizeof_range_config
                     then BT_ATT_ERR_INVALID_OFFSET
                     else BT_ATT_ERR_INVALID_ATTRIBUTE_LEN), g, []).
Proof.
  intros Hlen. unfold write_config.
  destruct (offset + Z.of_nat (length buf) >? sizeof_range_config); [reflexivity|].
  replace (Z.of_nat (length buf) =? sizeof_range_config) with false; [reflexivity|].
  symmetry. apply Z.eqb_neq. unfold sizeof_range_config. lia.
Qed.

End ConfigFacts.

(** ** Proofs: the sensor loop and the notification gate *)

Module SensorFacts.

Import CInt Zephyr Firmware RangeService Main Spec.

(** Runs the plumbing of [M] as far as the next call. *)
Ltac run_M :=
  cbv beta iota delta
    [bind ret get modify emit load range_service_get_config].

Lemma read_range_mm_returns (r : sensor_reply) (g : globals) :
  read_range_mm r g =
  match returned r with
  | Some d => Some (d, g, read_trace r)
  | None => None
  end.
Proof.
  unfold read_range_mm, returned, read_trace, bind, emit, ret, lift.
  destruct (fetch_ret r <? 0); [reflexivity|].
  destruct (get_ret r <? 0); [reflexivity|].
  destruct (let? a := mul (val1 r) 1000 in
            let? b := div (val2 r) 1000 in add a b); reflexivity.
Qed.

Lemma read_range_mm_inv (r : sensor_reply) (g g0 : globals) (d : Z)
    (tr0 : list event) :
  read_range_mm r g = Some (d, g0, tr0) ->
  returned r = Some d /\ g0 = g /\ tr0 = read_trace r.
Proof.
  rewrite read_range_mm_returns.
  destruct (returned r); [|discriminate].
  intros H. injection H as <- <- <-. repeat split.
Qed.

Lemma read_range_mm_defined (r : sensor_reply) (g : globals) :
  read_range_mm r g <> None -> returned r <> None.
Proof.
  rewrite read_range_mm_returns. destruct (returned r); congruence.
Qed.

Lemma read_trace_notified (r : sensor_reply) : notified (read_trace r) = [].
Proof.
  unfold read_trace.
  destruct (fetch_ret r <? 0); [reflexivity|].
  destruct (get_ret r <? 0); reflexivity.
Qed.

Lemma read_trace_fetches (r : sensor_reply) : sensor_fetches (read_trace r) = 1%nat.
Proof.
  unfold read_trace.
  destruct (fetch_ret r <? 0); [reflexivity|].
  destruct (get_ret r <? 0); reflexivity.
Qed.

Lemma notified_app (t1 t2 : list event) :
  notified (t1 ++ t2) = notified t1 ++ notified t2.
Proof.
  induction t1 as [|e t1 IH]; [reflexivity|].
  destruct e; cbn [app notified]; rewrite IH; reflexivity.
Qed.

Lemma sensor_fetches_app (t1 t2 : list event) :
  sensor_fetches (t1 ++ t2) = (sensor_fetches t1 + sensor_fetches t2)%nat.
Proof.
  induction t1 as [|e t1 IH]; [reflexivity|].
  destruct e; cbn [app sensor_fetches]; rewrite IH; reflexivity.
Qed.

(** [range_service_update], gate closed and gate open. *)
Lemma range_service_update_closed (g : globals) (notify_ret v : Z) :
  range_notify_enabled g = false ->
  range_service_update notify_ret v g = Some (0, set_current_range_mm v g, []).
Proof.
  intros Hg. unfold range_service_update, bind, modify, get, ret.
  cbn [range_notify_enabled set_current_range_mm]. rewrite Hg. reflexivity.
Qed.

Lemma range_service_update_open (g : globals) (notify_ret v : Z) :
  range_notify_enabled g = true ->
  range_service_update notify_ret v g =
  Some (notify_ret, set_current_range_mm v g, [Gatt_notify v]).
Proof.
  intros Hg. unfold range_service_update, bind, modify, get, ret, emit.
  cbn [range_notify_enabled set_current_range_mm]. rewrite Hg. reflexivity.
Qed.

Lemma range_service_update_any (g : globals) (notify_ret v : Z) :
  range_service_update notify_ret v g =
  Some (if range_notify_enabled g then notify_ret else 0,
        set_current_range_mm v g,
        if range_notify_enabled g then [Gatt_notify v] else []).
Proof.
  destruct (range_notify_enabled g) eqn:Hg.
  - apply range_service_update_open; assumption.
  - apply range_service_update_closed; assumption.
Qed.

(** One turn of the loop whose read gave a non-negative distance. *)
Lemma sensor_thread_iter_sample (r : sensor_reply) (notify_ret : Z)
    (g : globals) (d : Z) :
  returned r = Some d -> 0 <= d ->
  let v := clamped_of (active_config g) (to_u16 d) in
  sensor_thread_iter r notify_ret g =
  Some (tt, set_current_range_mm v g,
        read_trace r ++
        (if range_notify_enabled g then [Gatt_notify v] else []) ++
        [Msleep (sample_interval_ms (active_config g))]).
Proof.
  intros Hr Hd v.
  unfold sensor_thread_iter. run_M.
  rewrite read_range_mm_returns, Hr.
  replace (d >=? 0) with true by (symmetry; rewrite Z.geb_leb; apply Z.leb_le; lia).
  run_M. rewrite range_service_update_any. run_M.
  cbn [app active_config set_current_range_mm]. rewrite ?app_nil_r.
  reflexivity.
Qed.

(** One turn of the loop whose read gave a negative value. *)
Lemma sensor_thread_iter_error (r : sensor_reply) (notify_ret : Z)
    (g : globals) (d : Z) :
  returned r = Some d -> d < 0 ->
  sensor_thread_iter r notify_ret g =
  Some (tt, g, read_trace r ++ [Msleep (sample_interval_ms (active_config g))]).
Proof.
  intros Hr Hd.
  unfold sensor_thread_iter. run_M.
  rewrite read_range_mm_returns, Hr.
  replace (d >=? 0) with false by (symmetry; rewrite Z.geb_leb; apply Z.leb_gt; lia).
  run_M. cbn [app]. rewrite ?app_nil_r. reflexivity.
Qed.

Lemma sensor_thread_iter_undefined (r : sensor_reply) (notify_ret : Z) (g : globals) :
  returned r = None -> sensor_thread_iter r notify_ret g = None.
Proof.
  intros Hr.
  unfold sensor_thread_iter. run_M.
  rewrite read_range_mm_returns, Hr. reflexivity.
Qed.

(** The stored value is inside the window whenever the window is not empty. *)
Lemma clamped_of_window (c : range_config) (v : Z) :
  min_range_mm c <= max_range_mm c ->
  min_range_mm c <= clamped_of c v <= max_range_mm c.
Proof.
  intros Hc. unfold clamped_of.
  destruct (Z.ltb_spec v (min_range_mm c));
    rewrite Z.gtb_ltb;
    match goal with |- context [?a <? ?b] => destruct (Z.ltb_spec a b) end; lia.
Qed.

(** On a value that fits 16 bits the code clamps as the specification says. *)
Lemma clamped_of_clamp (c : range_config) (d : Z) :
  0 <= d < 65536 -> min_range_mm c <= max_range_mm c ->
  clamped_of c (to_u16 d) = clamp (min_range_mm c) (max_range_mm c) d.
Proof.
  intros Hd Hc. unfold clamped_of, clamp, to_u16.
  rewrite Z.mod_small by lia. rewrite Z.gtb_ltb.
  destruct (Z.ltb_spec d (min_range_mm c)) as [H1|H1]; [|reflexivity].
  replace (max_range_mm c <? min_range_mm c) with false; [reflexivity|].
  symmetry. apply Z.ltb_ge. lia.
Qed.

End SensorFacts.

(** ** Proofs: runs of the firmware *)

Module RunFacts.

Import CInt Zephyr Firmware RangeService Main Spec BytesFacts ConfigFacts SensorFacts.

(** A run of the sensor loop, as long as no read overflows: it terminates,
    pushes the accepted values when the gate is open and nothing when it is
    closed, and leaves the record, the gate and the connection alone. *)
Lemma sensor_thread_fn_runs (env : list (sensor_reply * Z)) :
  Forall (fun i => returned (fst i) <> None) env ->
  forall g : globals,
  exists g' tr,
    sensor_thread_fn env g = Some (tt, g', tr) /\
    notified tr =
      (if range_notify_enabled g then accepted (active_config g) env else []) /\
    sensor_fetches tr = length env /\
    active_config g' = active_config g /\
    range_notify_enabled g' = range_notify_enabled g /\
    current_conn g' = current_conn g.
Proof.
  induction 1 as [|[r nr] env Hr Henv IH]; intros g.
  - exists g, []. cbn. destruct (range_notify_enabled g); repeat split; reflexivity.
  - cbn [fst] in Hr. cbn [sensor_thread_fn accepted length].
    destruct (returned r) as [d|] eqn:Er; [clear Hr|congruence].
    destruct (Z.geb_spec d 0) as [Hd|Hd].
    + pose proof (sensor_thread_iter_sample r nr g d Er ltac:(lia)) as Hit.
      cbv zeta in Hit.
      set (v := clamped_of (active_config g) (to_u16 d)) in *.
      destruct (IH (set_current_range_mm v g))
        as (g' & tr & Hrun & Hpush & Hfetch & Hcfg & Hgate & Hconn).
      exists g'. eexists. unfold bind. rewrite Hit, Hrun.
      split; [reflexivity|].
      rewrite !notified_app, !sensor_fetches_app, read_trace_notified,
        read_trace_fetches, Hpush, Hfetch.
      cbn [range_notify_enabled active_config set_current_range_mm] in *.
      destruct (range_notify_enabled g); cbn; auto.
    + pose proof (sensor_thread_iter_error r nr g d Er ltac:(lia)) as Hit.
      destruct (IH g) as (g' & tr & Hrun & Hpush & Hfetch & Hcfg & Hgate & Hconn).
      exists g'. eexists. unfold bind. rewrite Hit, Hrun.
      split; [reflexivity|].
      rewrite !notified_app, !sensor_fetches_app, read_trace_notified,
        read_trace_fetches, Hpush, Hfetch.
      destruct (range_notify_enabled g); cbn; auto.
Qed.

(** [disconnected] on any globals and for any answer of the stack. *)
Lemma disconnected_runs (g : globals) (reason adv_ret : Z) :
  disconnected reason adv_ret g =
  Some (tt, set_current_conn None g,
        [Log LOG_INF (Disconnected reason)] ++
        match current_conn g with Some c => [Conn_unref c] | None => [] end ++
        [Adv_start] ++
        (if adv_ret =? 0 then []
         else [Log LOG_ERR (Advertising_restart_failed adv_ret)])).
Proof.
  unfold disconnected. run_M.
  destruct g as [v c b [conn|]]; cbn [current_conn]; run_M;
    destruct (adv_ret =? 0); reflexivity.
Qed.

Lemma range_ccc_changed_runs (g : globals) (value : Z) :
  range_ccc_changed value g =
  Some (tt, set_range_notify_enabled (value =? BT_GATT_CCC_NOTIFY) g,
        [Log LOG_INF (Range_notifications (value =? BT_GATT_CCC_NOTIFY))]).
Proof. reflexivity. Qed.

(** Any write leaves the record with a non-empty window if it had one. *)
Lemma write_config_window (buf : list Byte.byte) (offset : Z) (g : globals) :
  min_range_mm (active_config g) < max_range_mm (active_config g) ->
  exists ret g' tr,
    write_config buf offset g = Some (ret, g', tr) /\
    min_range_mm (active_config g') < max_range_mm (active_config g').
Proof.
  intros Hw. unfold write_config.
  destruct (offset + Z.of_nat (length buf) >? sizeof_range_config);
    [do 3 eexists; split; [reflexivity|exact Hw]|].
  destruct (negb (Z.of_nat (length buf) =? sizeof_range_config));
    [do 3 eexists; split; [reflexivity|exact Hw]|].
  set (c := range_config_of_bytes buf).
  destruct ((sample_interval_ms c <? 10) || (sample_interval_ms c >? 5000));
    [do 3 eexists; split; [reflexivity|exact Hw]|].
  destruct ((notify_interval_ms c <? 10) || (notify_interval_ms c >? 5000));
    [do 3 eexists; split; [reflexivity|exact Hw]|].
  destruct (Z.geb_spec (min_range_mm c) (max_range_mm c)) as [Hge|Hlt];
    [do 3 eexists; split; [reflexivity|exact Hw]|].
  do 3 eexists; split; [reflexivity|]. cbn [active_config set_active_config]. lia.
Qed.

(** The window of the stored record is never empty: it is not at boot, and
    no step makes it so. *)
Lemma run_window (ins : list input) :
  forall (g g' : globals) (tr : list event),
    min_range_mm (active_config g) < max_range_mm (active_config g) ->
    run ins g = Some (tt, g', tr) ->
    min_range_mm (active_config g') < max_range_mm (active_config g').
Proof.
  induction ins as [|i ins IH]; intros g g' tr Hw Hrun.
  - cbn in Hrun. injection Hrun as <- _. exact Hw.
  - cbn [run] in Hrun. unfold bind in Hrun.
    destruct (step i g) as [[[[] g1] t1]|] eqn:Hs; [|discriminate].
    destruct (run ins g1) as [[[[] g2] t2]|] eqn:Hr; [|discriminate].
    injection Hrun as <- _. apply (IH g1 g2 t2); [|exact Hr].
    destruct i as [r nr|value|conn err|reason adv_ret|buf offset]; cbn [step] in Hs.
    + destruct (returned r) as [d|] eqn:Er.
      * destruct (Z.geb_spec d 0) as [Hd|Hd].
        -- rewrite (sensor_thread_iter_sample r nr g d Er) in Hs by lia.
           injection Hs as <- _. exact Hw.
        -- rewrite (sensor_thread_iter_error r nr g d Er) in Hs by lia.
           injection Hs as <- _. exact Hw.
      * rewrite sensor_thread_iter_undefined in Hs by exact Er. discriminate.
    + rewrite range_ccc_changed_runs in Hs. injection Hs as <- _. exact Hw.
    + unfold connected in Hs. destruct (negb (err =? 0));
        cbv in Hs; injection Hs as <- _; exact Hw.
    + rewrite disconnected_runs in Hs. injection Hs as <- _. exact Hw.
    + destruct (write_config_window buf offset g Hw) as (ret & g3 & t3 & Hwr & Hw3).
      unfold bind in Hs. rewrite Hwr in Hs. cbn in Hs.
      injection Hs as <- _. exact Hw3.
Qed.

Lemma boot_window (sample_ms notify_ms : Z) :
  min_range_mm (active_config (boot sample_ms notify_ms))
  < max_range_mm (active_config (boot sample_ms notify_ms)).
Proof. cbn. lia. Qed.

End RunFacts.

(** ** The properties of the specification, settled on the code *)

Module Properties.

Import CInt Zephyr Firmware Battery RangeService Main Spec.
Import BatteryFacts BytesFacts ConfigFacts SensorFacts RunFacts.

(** *** BatteryCurve *)

(** C4.  [battery_mv_to_pct] is defined on every integer (no overflow, hence
    on every [int]) and equals the piecewise-linear table of section 4.2 with
    truncating division, segment by segment; inputs below 3300, the negative
    ones among them, give 0; it maps 4200 to 100, 3700 to 35 and 3300 to 0. *)
Theorem battery_mv_to_pct_is_table (mv : Z) :
  battery_mv_to_pct mv = Some (voltage_to_percent_table mv) /\
  (4200 <= mv -> battery_mv_to_pct mv = Some 100) /\
  (4100 <= mv < 4200 ->
   battery_mv_to_pct mv = Some (90 + Z.quot ((mv - 4100) * 10) 100)) /\
  (3800 <= mv < 4100 ->
   battery_mv_to_pct mv = Some (50 + Z.quot ((mv - 3800) * 40) 300)) /\
  (3600 <= mv < 3800 ->
   battery_mv_to_pct mv = Some (20 + Z.quot ((mv - 3600) * 30) 200)) /\
  (3300 <= mv < 3600 ->
   battery_mv_to_pct mv = Some (Z.quot ((mv - 3300) * 20) 300)) /\
  (mv < 3300 -> battery_mv_to_pct mv = Some 0) /\
  battery_mv_to_pct 4200 = Some 100 /\
  battery_mv_to_pct 3700 = Some 35 /\
  battery_mv_to_pct 3300 = Some 0.
Proof.
  rewrite battery_mv_to_pct_eq.
  by_segments mv; repeat split; intros; try reflexivity; lia.
Qed.

Lemma battery_mv_to_pct_is_table_witness :
  battery_mv_to_pct 4250 = Some 100 /\
  battery_mv_to_pct 4150 = Some 95 /\
  battery_mv_to_pct 3950 = Some 70 /\
  battery_mv_to_pct 3700 = Some 35 /\
  battery_mv_to_pct 3450 = Some 10 /\
  battery_mv_to_pct 3299 = Some 0 /\
  battery_mv_to_pct (-2147483648) = Some 0.
Proof.
  destruct (battery_mv_to_pct_is_table 4250) as (_ & H1 & _).
  destruct (battery_mv_to_pct_is_table 4150) as (_ & _ & H2 & _).
  destruct (battery_mv_to_pct_is_table 3950) as (_ & _ & _ & H3 & _).
  destruct (battery_mv_to_pct_is_table 3700) as (_ & _ & _ & _ & H4 & _).
  destruct (battery_mv_to_pct_is_table 3450) as (_ & _ & _ & _ & _ & H5 & _).
  destruct (battery_mv_to_pct_is_table 3299) as (_ & _ & _ & _ & _ & _ & H6 & _).
  destruct (battery_mv_to_pct_is_table (-2147483648))
    as (_ & _ & _ & _ & _ & _ & H7 & _).
  split; [apply H1; lia|]. split; [apply H2; lia|]. split; [apply H3; lia|].
  split; [apply H4; lia|]. split; [apply H5; lia|]. split; [apply H6; lia|].
  apply H7; lia.
Defined.

(** C5.  The conversion is monotonically non-decreasing, and its result lies
    in [0,100] on every input. *)
Theorem battery_mv_to_pct_monotone_bounded (mv1 mv2 : Z) :
  mv1 <= mv2 ->
  exists p1 p2 : Z,
    battery_mv_to_pct mv1 = Some p1 /\
    battery_mv_to_pct mv2 = Some p2 /\
    p1 <= p2 /\ 0 <= p1 <= 100 /\ 0 <= p2 <= 100.
Proof.
  intros Hle.
  exists (voltage_to_percent_table mv1), (voltage_to_percent_table mv2).
  rewrite !battery_mv_to_pct_eq.
  pose proof (table_bounds mv1). pose proof (table_bounds mv2).
  pose proof (table_monotone mv1 mv2 Hle).
  repeat split; lia.
Qed.

Lemma battery_mv_to_pct_monotone_bounded_witness :
  3650 <= 3700 /\
  exists p1 p2 : Z,
    battery_mv_to_pct 3650 = Some p1 /\
    battery_mv_to_pct 3700 = Some p2 /\
    p1 <= p2 /\ 0 <= p1 <= 100 /\ 0 <= p2 <= 100.
Proof.
  split; [lia|].
  apply (battery_mv_to_pct_monotone_bounded 3650 3700). lia.
Defined.

(** *** TelemetryConfig: the write handler *)

(** C1, as the code has it.  A full-length write whose candidate breaks an
    invariant is rejected at the first rule broken, in the order sample
    interval, notify interval, min below max; the handler returns
    [BT_ATT_ERR_VALUE_NOT_ALLOWED], the same code whatever the rule, logs the
    warning of that rule, and leaves every global as it was. *)
Theorem write_config_rejects_invalid (g : globals) (buf : list Byte.byte) :
  length buf = 8%nat ->
  ~ config_ok (range_config_of_bytes buf) ->
  exists r : rule,
    first_violation (range_config_of_bytes buf) r /\
    write_config buf 0 g =
    Some (BT_GATT_ERR BT_ATT_ERR_VALUE_NOT_ALLOWED, g,
          [Log LOG_WRN (rejection_log r (range_config_of_bytes buf))]).
Proof.
  intros Hlen Hbad.
  destruct (first_violation_exists _ Hbad) as [r Hr].
  exists r. split; [exact Hr|].
  apply write_config_first_violation; assumption.
Qed.

Lemma write_config_rejects_invalid_witness :
  let g := boot 100 100 in
  let buf := bytes_of_range_config (mk_range_config 100 6000 1200 30) in
  length buf = 8%nat /\
  ~ config_ok (range_config_of_bytes buf) /\
  exists r : rule,
    first_violation (range_config_of_bytes buf) r /\
    write_config buf 0 g =
    Some (BT_GATT_ERR BT_ATT_ERR_VALUE_NOT_ALLOWED, g,
          [Log LOG_WRN (rejection_log r (range_config_of_bytes buf))]).
Proof.
  intros g buf.
  assert (Hbad : ~ config_ok (range_config_of_bytes buf)).
  { unfold config_ok. vm_compute. intros (_ & [_ H] & _). apply H. reflexivity. }
  split; [reflexivity|]. split; [exact Hbad|].
  apply (write_config_rejects_invalid g buf); [reflexivity|exact Hbad].
Defined.

(** C1 as stated fails: a candidate with sample interval 5 and one with
    notify interval 6000 break different rules and get the same return
    value, -19, so no assignment of a distinct reason code per rule fits the
    handler. *)
Lemma write_config_reason_not_distinct :
  let g := boot 100 100 in
  let bad_sample := bytes_of_range_config (mk_range_config 5 100 1200 30) in
  let bad_notify := bytes_of_range_config (mk_range_config 100 6000 1200 30) in
  first_violation (range_config_of_bytes bad_sample) Sample_interval_range /\
  first_violation (range_config_of_bytes bad_notify) Notify_interval_range /\
  write_config bad_sample 0 g =
    Some (-19, g, [Log LOG_WRN (Rejected_sample_interval 5)]) /\
  write_config bad_notify 0 g =
    Some (-19, g, [Log LOG_WRN (Rejected_notify_interval 6000)]) /\
  ~ distinct_reason_per_rule.
Proof.
  intros g bad_sample bad_notify.
  assert (Hs : first_violation (range_config_of_bytes bad_sample)
                 Sample_interval_range).
  { unfold bad_sample. rewrite range_config_of_bytes_of_range_config
      by (unfold config_wf, is_u16; cbn; lia).
    split; [cbn; lia|intros [] Hb; destruct Hb]. }
  assert (Hn : first_violation (range_config_of_bytes bad_notify)
                 Notify_interval_range).
  { unfold bad_notify. rewrite range_config_of_bytes_of_range_config
      by (unfold config_wf, is_u16; cbn; lia).
    split; [cbn; lia|intros [] Hb; destruct Hb; cbn; lia]. }
  split; [exact Hs|]. split; [exact Hn|].
  split; [reflexivity|]. split; [reflexivity|].
  intros (reason & Hinj & Hret).
  destruct (Hret g bad_sample Sample_interval_range eq_refl Hs) as [tr1 H1].
  destruct (Hret g bad_notify Notify_interval_range eq_refl Hn) as [tr2 H2].
  rewrite (write_config_first_violation g bad_sample _ eq_refl Hs) in H1.
  rewrite (write_config_first_violation g bad_notify _ eq_refl Hn) in H2.
  assert (E : reason Sample_interval_range = reason Notify_interval_range)
    by congruence.
  apply Hinj in E. discriminate E.
Qed.

(** C2.  A full-length write of a candidate that satisfies the invariants
    succeeds: the handler returns the length, 8, the stored record becomes
    the candidate whole, every other global is kept, and a read through the
    pointer of [range_service_get_config], taken before or after the write,
    gives exactly the candidate. *)
Theorem write_config_replaces_record (g : globals) (c : range_config) :
  config_wf c -> config_ok c ->
  let buf := bytes_of_range_config c in
  let logged := [Log LOG_INF (Config_updated (sample_interval_ms c)
                   (notify_interval_ms c) (min_range_mm c) (max_range_mm c))] in
  write_config buf 0 g = Some (8, set_active_config c g, logged) /\
  (cfg <- range_service_get_config ;; load cfg) (set_active_config c g)
    = Some (c, set_active_config c g, []) /\
  (cfg <- range_service_get_config ;; write_config buf 0 ;; load cfg) g
    = Some (c, set_active_config c g, logged) /\
  bytes_of_range_config (active_config (set_active_config c g)) = buf.
Proof.
  intros Hwf Hok buf logged.
  assert (Hdec : range_config_of_bytes buf = c)
    by (apply range_config_of_bytes_of_range_config; exact Hwf).
  assert (Hw : write_config buf 0 g = Some (8, set_active_config c g, logged)).
  { pose proof (write_config_accepts g buf eq_refl) as H. cbv zeta in H.
    rewrite Hdec in H. apply H. exact Hok. }
  split; [exact Hw|]. split; [reflexivity|]. split; [|reflexivity].
  run_M. rewrite Hw. cbn [app active_config set_active_config].
  rewrite app_nil_r. reflexivity.
Qed.

Lemma write_config_replaces_record_witness :
  let g := boot 100 100 in
  let c := mk_range_config 250 1000 2000 50 in
  config_wf c /\ config_ok c /\
  write_config (bytes_of_range_config c) 0 g =
    Some (8, set_active_config c g, [Log LOG_INF (Config_updated 250 1000 50 2000)]) /\
  (cfg <- range_service_get_config ;;
   write_config (bytes_of_range_config c) 0 ;; load cfg) g
    = Some (c, set_active_config c g, [Log LOG_INF (Config_updated 250 1000 50 2000)]).
Proof.
  intros g c.
  assert (Hwf : config_wf c) by (unfold config_wf, is_u16; cbn; lia).
  assert (Hok : config_ok c) by (unfold config_ok; cbn; lia).
  destruct (write_config_replaces_record g c Hwf Hok) as (H1 & _ & H3 & _).
  split; [exact Hwf|]. split; [exact Hok|]. split; [exact H1|exact H3].
Defined.

(** C8, as the code has it.  A write whose payload is not 8 bytes long is
    rejected by the length tests, before the candidate is looked at: nothing
    is logged and no global changes.  The code returned is
    [BT_ATT_ERR_INVALID_OFFSET] when offset + length exceeds 8 and
    [BT_ATT_ERR_INVALID_ATTRIBUTE_LEN] otherwise; either differs from the
    code of a validation failure.  A 6-byte payload at offset 0, 1 or 2 gets
    [BT_ATT_ERR_INVALID_ATTRIBUTE_LEN]. *)
Theorem write_config_rejects_bad_length
    (g : globals) (buf : list Byte.byte) (offset : Z) :
  length buf <> 8%nat ->
  let code := if offset + Z.of_nat (length buf) >? 8
              then BT_ATT_ERR_INVALID_OFFSET
              else BT_ATT_ERR_INVALID_ATTRIBUTE_LEN in
  write_config buf offset g = Some (BT_GATT_ERR code, g, []) /\
  BT_GATT_ERR code <> BT_GATT_ERR BT_ATT_ERR_VALUE_NOT_ALLOWED /\
  (length buf = 6%nat -> 0 <= offset <= 2 ->
   code = BT_ATT_ERR_INVALID_ATTRIBUTE_LEN) /\
  sizeof_range_config = 8 /\
  (forall s0 s1 n0 n1 x0 x1 m0 m1 : Byte.byte,
     range_config_of_bytes [s0; s1; n0; n1; x0; x1; m0; m1] =
     {| sample_interval_ms := byte_val s0 + 256 * byte_val s1;
        notify_interval_ms := byte_val n0 + 256 * byte_val n1;
        max_range_mm := byte_val x0 + 256 * byte_val x1;
        min_range_mm := byte_val m0 + 256 * byte_val m1 |}).
Proof.
  intros Hlen code. split; [apply write_config_bad_length; exact Hlen|].
  split; [|split; [|split]].
  - unfold code. destruct (offset + Z.of_nat (length buf) >? 8); discriminate.
  - intros H6 Hoff. unfold code. rewrite H6.
    replace (offset + Z.of_nat 6 >? 8) with false; [reflexivity|].
    symmetry. rewrite Z.gtb_ltb. apply Z.ltb_ge. lia.
  - reflexivity.
  - intros. unfold range_config_of_bytes. rewrite !u16_at_eq. reflexivity.
Qed.

Lemma write_config_rejects_bad_length_witness :
  let g := boot 100 100 in
  let buf := [Byte.x64; Byte.x00; Byte.x64; Byte.x00; Byte.xb0; Byte.x04] in
  length buf <> 8%nat /\
  write_config buf 0 g =
    Some (BT_GATT_ERR BT_ATT_ERR_INVALID_ATTRIBUTE_LEN, g, []).
Proof.
  intros g buf.
  assert (Hlen : length buf <> 8%nat) by (cbn; lia).
  split; [exact Hlen|].
  exact (proj1 (write_config_rejects_bad_length g buf 0 Hlen)).
Defined.

(** C8 as stated fails: a 9-byte payload at offset 0 is rejected with
    [BT_ATT_ERR_INVALID_OFFSET] (-7), not with the malformed-length code
    [BT_ATT_ERR_INVALID_ATTRIBUTE_LEN] (-13). *)
Lemma write_config_long_payload_invalid_offset :
  let g := boot 100 100 in
  let buf := repeat Byte.x00 9 in
  length buf <> 8%nat /\
  write_config buf 0 g = Some (BT_GATT_ERR BT_ATT_ERR_INVALID_OFFSET, g, []) /\
  write_config buf 0 g <>
    Some (BT_GATT_ERR BT_ATT_ERR_INVALID_ATTRIBUTE_LEN, g, []).
Proof.
  intros g buf. split; [cbn; lia|]. split; [reflexivity|].
  intros H. discriminate H.
Qed.

(** *** RangeSampler and SubscriptionGate *)

(** The scenario of section 8: 1500 mm is stored as 1200 and 5 mm as 30
    under the default record. *)
Example default_clamps_1500_and_5 (sample_ms notify_ms notify_ret : Z) :
  let g := boot sample_ms notify_ms in
  sensor_thread_iter (mk_sensor_reply 0 0 1 500000) notify_ret g =
    Some (tt, set_current_range_mm 1200 g,
          [Sensor_sample_fetch; Sensor_channel_get; Msleep sample_ms]) /\
  sensor_thread_iter (mk_sensor_reply 0 0 0 5000) notify_ret g =
    Some (tt, set_current_range_mm 30 g,
          [Sensor_sample_fetch; Sensor_channel_get; Msleep sample_ms]).
Proof. split; reflexivity. Qed.

(** In every state the firmware can reach from boot, whatever a sample's
    raw distance, the value stored by the turn lies in the window of the
    record in effect. *)
Lemma sample_stored_in_window (sample_ms notify_ms : Z) (ins : list input)
    (g : globals) (tr : list event) (r : sensor_reply) (notify_ret d : Z) :
  run ins (boot sample_ms notify_ms) = Some (tt, g, tr) ->
  returned r = Some d -> 0 <= d ->
  exists g' tr',
    sensor_thread_iter r notify_ret g = Some (tt, g', tr') /\
    min_range_mm (active_config g) <= current_range_mm g'
      <= max_range_mm (active_config g).
Proof.
  intros Hrun Hr Hd.
  pose proof (run_window ins _ _ _ (boot_window sample_ms notify_ms) Hrun) as Hw.
  do 2 eexists. split; [apply (sensor_thread_iter_sample r notify_ret g d Hr Hd)|].
  cbn [current_range_mm set_current_range_mm].
  apply clamped_of_window. lia.
Qed.

(** C3, where the code departs from it.  Under the default record a read of
    65566 mm ([val1] = 65 m, [val2] = 566000 millionths) is above
    [max_range_mm] = 1200, and clamping it gives 1200; the loop stores 30. *)
Theorem clamp_misses_wrapped_distance (sample_ms notify_ms notify_ret : Z) :
  let g := boot sample_ms notify_ms in
  let r := mk_sensor_reply 0 0 65 566000 in
  read_range_mm r g = Some (65566, g, [Sensor_sample_fetch; Sensor_channel_get]) /\
  clamp (min_range_mm (active_config g)) (max_range_mm (active_config g)) 65566
    = 1200 /\
  sensor_thread_iter r notify_ret g =
    Some (tt, set_current_range_mm 30 g,
          [Sensor_sample_fetch; Sensor_channel_get; Msleep sample_ms]).
Proof. repeat split. Qed.

(** C10.  The loop converts the raw distance to [uint16_t] before it clamps:
    the value stored for a read [d >= 0] is the clamp of [d mod 65536].  So
    under the default record the raw distance 65566, above [max_range_mm], is
    stored as 65566 mod 65536 = 30, a value of the window other than
    [max_range_mm]. *)
Theorem sensor_loop_wraps_before_clamping :
  (forall (g g0 : globals) (r : sensor_reply) (notify_ret d : Z) (tr0 : list event),
     read_range_mm r g = Some (d, g0, tr0) -> 0 <= d ->
     exists tr,
       sensor_thread_iter r notify_ret g =
       Some (tt, set_current_range_mm
                   (clamped_of (active_config g) (d mod 65536)) g, tr)) /\
  (forall sample_ms notify_ms notify_ret : Z,
     let g := boot sample_ms notify_ms in
     let r := mk_sensor_reply 0 0 65 566000 in
     read_range_mm r g =
       Some (65566, g, [Sensor_sample_fetch; Sensor_channel_get]) /\
     max_range_mm (active_config g) < 65566 /\
     (exists tr,
        sensor_thread_iter r notify_ret g =
        Some (tt, set_current_range_mm (65566 mod 65536) g, tr)) /\
     65566 mod 65536 = 30 /\
     min_range_mm (active_config g) <= 65566 mod 65536
       <= max_range_mm (active_config g) /\
     65566 mod 65536 <> max_range_mm (active_config g)).
Proof.
  split.
  - intros g g0 r notify_ret d tr0 Hread Hd.
    apply read_range_mm_inv in Hread. destruct Hread as (Hr & _ & _).
    eexists. apply (sensor_thread_iter_sample r notify_ret g d Hr Hd).
  - intros sample_ms notify_ms notify_ret g r.
    split; [reflexivity|]. split; [cbn; lia|].
    split; [eexists; reflexivity|]. split; [reflexivity|].
    split; cbn; lia.
Qed.

Lemma sensor_loop_wraps_before_clamping_witness :
  let g := boot 100 100 in
  let r := mk_sensor_reply 0 0 65 566000 in
  read_range_mm r g = Some (65566, g, [Sensor_sample_fetch; Sensor_channel_get]) /\
  0 <= 65566 /\
  exists tr,
    sensor_thread_iter r 0 g =
    Some (tt, set_current_range_mm
                (clamped_of (active_config g) (65566 mod 65536)) g, tr).
Proof.
  intros g r. split; [reflexivity|]. split; [lia|].
  apply (proj1 sensor_loop_wraps_before_clamping g g r 0 65566
           [Sensor_sample_fetch; Sensor_channel_get]); [reflexivity|lia].
Defined.

(** C9.  A turn whose read returns a negative value changes no global,
    fetches from the sensor once, pushes nothing, sleeps for the sample
    interval, and the loop goes on with the next turn. *)
Theorem sensor_error_skips_tick (g g0 : globals) (r : sensor_reply)
    (notify_ret d : Z) (tr0 : list event) (env : list (sensor_reply * Z)) :
  read_range_mm r g = Some (d, g0, tr0) -> d < 0 ->
  let tick := tr0 ++ [Msleep (sample_interval_ms (active_config g))] in
  sensor_thread_iter r notify_ret g = Some (tt, g, tick) /\
  notified tick = [] /\
  sensor_fetches tick = 1%nat /\
  sensor_thread_fn ((r, notify_ret) :: env) g =
    match sensor_thread_fn env g with
    | Some (u, g', tr') => Some (u, g', tick ++ tr')
    | None => None
    end.
Proof.
  intros Hread Hd tick.
  apply read_range_mm_inv in Hread. destruct Hread as (Hr & _ & ->).
  pose proof (sensor_thread_iter_error r notify_ret g d Hr Hd) as Hit.
  fold tick in Hit.
  split; [exact Hit|]. split; [|split].
  - unfold tick. rewrite notified_app, read_trace_notified. reflexivity.
  - unfold tick. rewrite sensor_fetches_app, read_trace_fetches. reflexivity.
  - cbn [sensor_thread_fn]. unfold bind. rewrite Hit. reflexivity.
Qed.

Lemma sensor_error_skips_tick_witness :
  let g := mk_globals 700 (default_config 100 100) true (Some 1) in
  let r := mk_sensor_reply (-5) 0 0 0 in
  let tr0 := [Sensor_sample_fetch; Log LOG_WRN (Sensor_fetch_failed (-5))] in
  read_range_mm r g = Some (-5, g, tr0) /\ -5 < 0 /\
  sensor_thread_iter r 0 g = Some (tt, g, tr0 ++ [Msleep 100]) /\
  notified (tr0 ++ [Msleep 100]) = [] /\
  sensor_fetches (tr0 ++ [Msleep 100]) = 1%nat.
Proof.
  intros g r tr0.
  destruct (sensor_error_skips_tick g g r 0 (-5) tr0 [])
    as (H1 & H2 & H3 & _); [reflexivity|lia|].
  split; [reflexivity|]. split; [lia|].
  split; [exact H1|]. split; [exact H2|exact H3].
Defined.

(** C6.  [range_service_update] always stores the value; it pushes it, once,
    exactly when the gate is open.  So a turn of the loop with a successful
    read stores the clamped value and makes no push while the gate is closed
    and one push, of that value, while it is open; over a run of the loop the
    pushes are the accepted values, one per successful read, once the gate is
    open, and none while it is closed.  The subscription-enable signal opens
    the gate. *)
Theorem notification_gate (g g0 : globals) (r : sensor_reply)
    (notify_ret d : Z) (tr0 : list event) (env : list (sensor_reply * Z)) :
  read_range_mm r g = Some (d, g0, tr0) -> 0 <= d ->
  Forall (fun i => read_range_mm (fst i) g <> None) env ->
  let v := clamped_of (active_config g) (to_u16 d) in
  let gate := range_notify_enabled g in
  range_service_update notify_ret v g =
    Some (if gate then notify_ret else 0, set_current_range_mm v g,
          if gate then [Gatt_notify v] else []) /\
  (exists tr,
     sensor_thread_iter r notify_ret g = Some (tt, set_current_range_mm v g, tr) /\
     notified tr = if gate then [v] else []) /\
  (exists g' tr,
     sensor_thread_fn env g = Some (tt, g', tr) /\
     notified tr = (if gate then accepted (active_config g) env else []) /\
     range_notify_enabled g' = gate) /\
  range_ccc_changed BT_GATT_CCC_NOTIFY g =
    Some (tt, set_range_notify_enabled true g,
          [Log LOG_INF (Range_notifications true)]).
Proof.
  intros Hread Hd Henv v gate.
  apply read_range_mm_inv in Hread. destruct Hread as (Hr & _ & _).
  split; [apply range_service_update_any|]. split; [|split].
  - eexists. split; [apply (sensor_thread_iter_sample r notify_ret g d Hr Hd)|].
    rewrite !notified_app, read_trace_notified. fold gate v.
    destruct gate; reflexivity.
  - assert (Henv' : Forall (fun i => returned (fst i) <> None) env).
    { eapply Forall_impl; [|exact Henv]. intros i. apply read_range_mm_defined. }
    destruct (sensor_thread_fn_runs env Henv' g)
      as (g' & tr & Hrun & Hpush & _ & _ & Hgate & _).
    exists g', tr. auto.
  - reflexivity.
Qed.

Lemma notification_gate_witness :
  let closed := boot 100 100 in
  let r := mk_sensor_reply 0 0 1 500000 in
  let tr0 := [Sensor_sample_fetch; Sensor_channel_get] in
  let env := [(mk_sensor_reply 0 0 0 5000, 0); (mk_sensor_reply (-5) 0 0 0, 0); (r, 0)] in
  read_range_mm r closed = Some (1500, closed, tr0) /\ 0 <= 1500 /\
  Forall (fun i => read_range_mm (fst i) closed <> None) env /\
  (exists tr,
     sensor_thread_iter r 0 closed = Some (tt, set_current_range_mm 1200 closed, tr) /\
     notified tr = []) /\
  let opened := set_range_notify_enabled true closed in
  range_ccc_changed BT_GATT_CCC_NOTIFY closed =
    Some (tt, opened, [Log LOG_INF (Range_notifications true)]) /\
  (exists tr,
     sensor_thread_iter r 0 opened = Some (tt, set_current_range_mm 1200 opened, tr) /\
     notified tr = [1200]) /\
  (exists g' tr,
     sensor_thread_fn env opened = Some (tt, g', tr) /\
     notified tr = [30; 1200] /\
     range_notify_enabled g' = true).
Proof.
  intros closed r tr0 env.
  assert (Hread : forall g, read_range_mm r g = Some (1500, g, tr0))
    by (intros g; reflexivity).
  assert (Henv : forall g, Forall (fun i => read_range_mm (fst i) g <> None) env)
    by (intros g; repeat constructor; discriminate).
  split; [apply Hread|]. split; [lia|]. split; [apply Henv|].
  destruct (notification_gate closed closed r 0 1500 tr0 env
              (Hread closed) ltac:(lia) (Henv closed)) as (_ & Hc & _ & Hccc).
  split; [exact Hc|]. intros opened. split; [exact Hccc|].
  destruct (notification_gate opened opened r 0 1500 tr0 env
              (Hread opened) ltac:(lia) (Henv opened)) as (_ & Ho & Hrun & _).
  split; [exact Ho|exact Hrun].
Defined.

(** The scenario of section 8 as one run from boot: a sample with the gate
    closed, the subscription, a sample with the gate open. *)
Example gate_scenario :
  exists g tr,
    run [In_sample (mk_sensor_reply 0 0 1 500000) 0;
         In_ccc_changed BT_GATT_CCC_NOTIFY;
         In_sample (mk_sensor_reply 0 0 0 5000) 0] (boot 100 100)
      = Some (tt, g, tr) /\
    current_range_mm g = 30 /\
    notified tr = [30].
Proof. do 2 eexists. split; [reflexivity|]. split; reflexivity. Qed.

(** *** ConnectionSupervisor *)

(** C7, as the code has it.  [disconnected] releases the handle it holds,
    if any, clears [current_conn], asks the stack to restart advertising
    exactly once, and only logs an error when that request fails; it does
    not touch the gate, which keeps the value it had. *)
Theorem disconnected_releases_and_readvertises (g : globals) (reason adv_ret : Z) :
  let tr :=
    [Log LOG_INF (Disconnected reason)] ++
    match current_conn g with Some c => [Conn_unref c] | None => [] end ++
    [Adv_start] ++
    (if adv_ret =? 0 then []
     else [Log LOG_ERR (Advertising_restart_failed adv_ret)]) in
  disconnected reason adv_ret g = Some (tt, set_current_conn None g, tr) /\
  current_conn (set_current_conn None g) = None /\
  adv_starts tr = 1%nat /\
  range_notify_enabled (set_current_conn None g) = range_notify_enabled g /\
  active_config (set_current_conn None g) = active_config g /\
  current_range_mm (set_current_conn None g) = current_range_mm g.
Proof.
  intros tr. split; [apply disconnected_runs|].
  split; [reflexivity|]. split; [|repeat split].
  unfold tr. destruct (current_conn g); destruct (adv_ret =? 0); reflexivity.
Qed.

(** C7 as stated fails: after a disconnect with the subscription open the
    gate is still open, and the next successful sample is pushed. *)
Lemma disconnected_leaves_gate_open :
  let g := mk_globals 700 (default_config 100 100) true (Some 1) in
  let g' := mk_globals 700 (default_config 100 100) true None in
  disconnected 19 0 g =
    Some (tt, g', [Log LOG_INF (Disconnected 19); Conn_unref 1; Adv_start]) /\
  range_notify_enabled g' = true /\
  range_notify_enabled g' <> false /\
  exists tr,
    sensor_thread_iter (mk_sensor_reply 0 0 1 500000) 0 g'
      = Some (tt, set_current_range_mm 1200 g', tr) /\
    notified tr = [1200].
Proof.
  intros g g'. split; [reflexivity|]. split; [reflexivity|].
  split; [discriminate|]. eexists. split; reflexivity.
Qed.

End Properties.

(** ** Proofs: the battery sampler *)

Module BatterySamplerFacts.

Import CInt Firmware Battery BatteryAdc MainBoot BatteryFacts.

Lemma chk_in_int (z : Z) : INT_MIN <= z <= INT_MAX -> chk z = Some z.
Proof.
  intros H. unfold chk, in_int.
  replace (_ && _) with true; [reflexivity|].
  symmetry. apply andb_true_iff. split; apply Z.leb_le; lia.
Qed.

(** The millivolts computed from a raw sample. *)
Lemma scaled_bounds (raw : Z) :
  -32768 <= raw <= 32767 ->
  0 <= Z.max 0 raw * 7200 / 4096 <= 57598 /\
  (0 < Z.max 0 raw * 7200 / 4096 <-> 1 <= raw).
Proof.
  intros H. Z.to_euclidean_division_equations. lia.
Qed.

Lemma battery_read_mv_value (a : adc_reply) :
  -32768 <= adc_buffer a <= 32767 ->
  battery_read_mv a =
  Some (if adc_ret a <? 0 then adc_ret a
        else Z.max 0 (adc_buffer a) * 7200 / 4096,
        if adc_ret a <? 0
        then [Adc_read; Battery_log_err (Adc_read_failed (adc_ret a))]
        else [Adc_read]).
Proof.
  intros H. unfold battery_read_mv.
  destruct (adc_ret a <? 0); [reflexivity|].
  assert (Em : (if adc_buffer a <? 0 then 0 else adc_buffer a)
               = Z.max 0 (adc_buffer a))
    by (destruct (Z.ltb_spec (adc_buffer a) 0); lia).
  rewrite Em. set (m := Z.max 0 (adc_buffer a)).
  assert (Hm : 0 <= m <= 32767) by (unfold m; lia).
  unfold mul, div, ADC_FULL_SCALE_MV, DIVIDER_RATIO, ADC_RESOLUTION.
  rewrite chk_in_int by (unfold INT_MIN, INT_MAX; lia). cbn [and_then].
  rewrite chk_in_int by (unfold INT_MIN, INT_MAX; lia). cbn [and_then].
  change (Z.shiftl 1 12) with 4096. change (4096 =? 0) with false. cbv iota.
  rewrite Z.quot_div_nonneg by lia.
  replace (m * 3600 * 2) with (m * 7200) by lia.
  pose proof (scaled_bounds (adc_buffer a) H) as [Hb _]. fold m in Hb.
  rewrite chk_in_int by (unfold INT_MIN, INT_MAX; lia). reflexivity.
Qed.

(** One turn of the battery thread. *)
Lemma battery_thread_iter_value (interval_s : Z) (a : adc_reply) :
  -32768 <= adc_buffer a <= 32767 ->
  let mv := adc_buffer a * 7200 / 4096 in
  battery_thread_iter interval_s a =
  Some (if adc_ret a <? 0 then
          [Adc_read; Battery_log_err (Adc_read_failed (adc_ret a));
           Sleep_seconds interval_s]
        else if 1 <=? adc_buffer a then
          [Adc_read; Bas_set_battery_level (voltage_to_percent_table mv);
           Battery_log_dbg mv (voltage_to_percent_table mv);
           Sleep_seconds interval_s]
        else
          [Adc_read; Sleep_seconds interval_s]).
Proof.
  intros H mv. unfold battery_thread_iter.
  rewrite (battery_read_mv_value a H).
  destruct (Z.ltb_spec (adc_ret a) 0) as [Hr|Hr].
  - replace (adc_ret a >? 0) with false; [reflexivity|].
    symmetry. rewrite Z.gtb_ltb. apply Z.ltb_ge. lia.
  - pose proof (scaled_bounds (adc_buffer a) H) as [Hb Hpos].
    destruct (Z.leb_spec 1 (adc_buffer a)) as [H1|H1].
    + replace (Z.max 0 (adc_buffer a)) with (adc_buffer a) in * by lia.
      fold mv in Hb, Hpos |- *.
      replace (mv >? 0) with true
        by (symmetry; rewrite Z.gtb_ltb; apply Z.ltb_lt; lia).
      rewrite battery_mv_to_pct_eq. reflexivity.
    + replace (Z.max 0 (adc_buffer a) * 7200 / 4096 >? 0) with false;
        [reflexivity|].
      symmetry. rewrite Z.gtb_ltb. apply Z.ltb_ge. lia.
Qed.

Lemma levels_app (t1 t2 : list battery_event) :
  levels (t1 ++ t2) = levels t1 ++ levels t2.
Proof.
  induction t1 as [|e t1 IH]; [reflexivity|].
  destruct e; cbn [app levels]; rewrite IH; reflexivity.
Qed.

End BatterySamplerFacts.

(** ** Proofs: the callbacks and the steps of the firmware *)

Module StepFacts.

Import CInt Zephyr Firmware RangeService RangeServiceRead Main Spec Runs.
Import BytesFacts ConfigFacts SensorFacts RunFacts.

Lemma config_ok_dec (c : range_config) : {config_ok c} + {~ config_ok c}.
Proof.
  unfold config_ok.
  destruct (Z_le_dec 10 (sample_interval_ms c));
  destruct (Z_le_dec (sample_interval_ms c) 5000);
  destruct (Z_le_dec 10 (notify_interval_ms c));
  destruct (Z_le_dec (notify_interval_ms c) 5000);
  destruct (Z_lt_dec (min_range_mm c) (max_range_mm c));
  (left; lia) || (right; lia).
Qed.

(** [write_config] on any payload and offset: a rejection, which changes
    nothing, or the acceptance of a full-length valid candidate. *)
Lemma write_config_cases (buf : list Byte.byte) (offset : Z) (g : globals) :
  let c := range_config_of_bytes buf in
  (exists code tr,
     write_config buf offset g = Some (BT_GATT_ERR code, g, tr) /\
     0 < code /\ notified tr = [] /\ conn_refs tr = O /\ conn_unrefs tr = O /\
     ~ (offset <= 0 /\ length buf = 8%nat /\ config_ok c)) \/
  (write_config buf offset g =
     Some (8, set_active_config c g,
           [Log LOG_INF (Config_updated (sample_interval_ms c)
              (notify_interval_ms c) (min_range_mm c) (max_range_mm c))]) /\
   offset <= 0 /\ length buf = 8%nat /\ config_ok c).
Proof.
  intros c.
  destruct (Nat.eq_dec (length buf) 8) as [Hlen|Hlen].
  - destruct (Z_le_dec offset 0) as [Hoff|Hoff].
    + destruct (config_ok_dec c) as [Hok|Hbad].
      * right. split; [|split; [assumption|split; assumption]].
        unfold write_config. rewrite Hlen.
        replace (offset + Z.of_nat 8 >? sizeof_range_config) with false
          by (symmetry; rewrite Z.gtb_ltb; apply Z.ltb_ge;
              unfold sizeof_range_config; lia).
        change (negb (Z.of_nat 8 =? sizeof_range_config)) with false. cbv iota.
        fold c. destruct Hok as (Hs & Hn & Hm).
        rewrite (interval_test_false _ Hs), (interval_test_false _ Hn),
          (order_test_false _ _ Hm). reflexivity.
      * left. destruct (first_violation_exists c Hbad) as [r [Hv Hfirst]].
        exists BT_ATT_ERR_VALUE_NOT_ALLOWED.
        exists [Log LOG_WRN (rejection_log r c)].
        split; [|repeat split; try reflexivity; tauto].
        unfold write_config. rewrite Hlen.
        replace (offset + Z.of_nat 8 >? sizeof_range_config) with false
          by (symmetry; rewrite Z.gtb_ltb; apply Z.ltb_ge;
              unfold sizeof_range_config; lia).
        change (negb (Z.of_nat 8 =? sizeof_range_config)) with false. cbv iota.
        fold c. destruct r; cbn [violates rejection_log] in *.
        -- rewrite (interval_test_true _ Hv). reflexivity.
        -- pose proof (Hfirst Sample_interval_range I) as Hs.
           cbn [violates] in Hs.
           rewrite (interval_test_false (sample_interval_ms c)) by lia.
           rewrite (interval_test_true _ Hv). reflexivity.
        -- pose proof (Hfirst Sample_interval_range I) as Hs.
           pose proof (Hfirst Notify_interval_range I) as Hn.
           cbn [violates] in Hs, Hn.
           rewrite (interval_test_false (sample_interval_ms c)) by lia.
           rewrite (interval_test_false (notify_interval_ms c)) by lia.
           rewrite (order_test_true _ _ Hv). reflexivity.
    + left. exists BT_ATT_ERR_INVALID_OFFSET, [].
      split; [|repeat split; try reflexivity; lia].
      unfold write_config. rewrite Hlen.
      replace (offset + Z.of_nat 8 >? sizeof_range_config) with true;
        [reflexivity|].
      symmetry. rewrite Z.gtb_ltb. apply Z.ltb_lt.
      unfold sizeof_range_config. lia.
  - left. rewrite (write_config_bad_length g buf offset Hlen).
    eexists. exists []. split; [reflexivity|].
    split; [destruct (_ >? _); reflexivity|].
    repeat split; try reflexivity. tauto.
Qed.

Lemma connected_runs (g : globals) (conn : bt_conn) (err : Z) :
  connected conn err g =
  Some (tt, if err =? 0 then set_current_conn (Some conn) g else g,
        if err =? 0 then [Log LOG_INF Connected; Conn_ref conn]
        else [Log LOG_ERR (Connection_failed err)]).
Proof.
  unfold connected. destruct (err =? 0); [|reflexivity].
  destruct g; reflexivity.
Qed.

Lemma conn_refs_app (t1 t2 : list event) :
  conn_refs (t1 ++ t2) = (conn_refs t1 + conn_refs t2)%nat.
Proof.
  induction t1 as [|e t1 IH]; [reflexivity|].
  destruct e; cbn [app conn_refs]; rewrite IH; reflexivity.
Qed.

Lemma conn_unrefs_app (t1 t2 : list event) :
  conn_unrefs (t1 ++ t2) = (conn_unrefs t1 + conn_unrefs t2)%nat.
Proof.
  induction t1 as [|e t1 IH]; [reflexivity|].
  destruct e; cbn [app conn_unrefs]; rewrite IH; reflexivity.
Qed.

Lemma read_trace_conn (r : sensor_reply) :
  conn_refs (read_trace r) = O /\ conn_unrefs (read_trace r) = O.
Proof.
  unfold read_trace.
  destruct (fetch_ret r <? 0); [split; reflexivity|].
  destruct (get_ret r <? 0); split; reflexivity.
Qed.

(** What each step does to the globals and which calls it makes. *)
Lemma step_summary (i : input) (g : globals) :
  input_defined i ->
  exists g' tr,
    step i g = Some (tt, g', tr) /\
    (conn_unrefs tr + held g' <= conn_refs tr + held g)%nat /\
    match i with
    | In_sample r _ =>
        (g' = g /\ notified tr = []) \/
        (exists d, returned r = Some d /\ 0 <= d /\
           let v := clamped_of (active_config g) (to_u16 d) in
           g' = set_current_range_mm v g /\
           notified tr = if range_notify_enabled g then [v] else [])
    | In_ccc_changed value =>
        g' = set_range_notify_enabled (value =? BT_GATT_CCC_NOTIFY) g /\
        notified tr = []
    | In_connected conn err =>
        g' = (if err =? 0 then set_current_conn (Some conn) g else g) /\
        notified tr = []
    | In_disconnected _ _ =>
        g' = set_current_conn None g /\ notified tr = []
    | In_write_config buf _ =>
        notified tr = [] /\
        (g' = g \/
         (config_ok (range_config_of_bytes buf) /\
          g' = set_active_config (range_config_of_bytes buf) g))
    end.
Proof.
  intros Hdef.
  destruct i as [r nr|value|conn err|reason adv_ret|buf offset]; cbn [step].
  - cbn [input_defined] in Hdef.
    destruct (returned r) as [d|] eqn:Er; [clear Hdef|congruence].
    destruct (read_trace_conn r) as [Hrf Hun].
    destruct (Z.geb_spec d 0) as [Hd|Hd].
    + do 2 eexists.
      split; [apply (sensor_thread_iter_sample r nr g d Er); lia|].
      split.
      * rewrite !conn_refs_app, !conn_unrefs_app, Hrf, Hun. unfold held.
        cbn [current_conn set_current_range_mm].
        destruct (range_notify_enabled g); cbn [conn_refs conn_unrefs]; lia.
      * right. exists d. split; [reflexivity|]. split; [lia|].
        cbv zeta. split; [reflexivity|].
        rewrite !notified_app, read_trace_notified.
        destruct (range_notify_enabled g); reflexivity.
    + do 2 eexists.
      split; [apply (sensor_thread_iter_error r nr g d Er); lia|].
      split.
      * rewrite !conn_refs_app, !conn_unrefs_app, Hrf, Hun. cbn. lia.
      * left. split; [reflexivity|].
        rewrite notified_app, read_trace_notified. reflexivity.
  - rewrite range_ccc_changed_runs. do 2 eexists. split; [reflexivity|].
    split; [unfold held; cbn [current_conn set_range_notify_enabled
              conn_refs conn_unrefs]; lia|]. split; reflexivity.
  - rewrite connected_runs. do 2 eexists. split; [reflexivity|].
    split; [|split; [reflexivity|]]; destruct (err =? 0);
      try reflexivity; unfold held; cbn; destruct (current_conn g); lia.
  - rewrite disconnected_runs. do 2 eexists. split; [reflexivity|].
    split; [|split; [reflexivity|]].
    + unfold held. cbn [current_conn set_current_conn].
      destruct (current_conn g); destruct (adv_ret =? 0); cbn; lia.
    + destruct (current_conn g); destruct (adv_ret =? 0); reflexivity.
  - destruct (write_config_cases buf offset g)
      as [(code & tr & Hw & _ & Hn & Hrf & Hun & _)|(Hw & _ & _ & Hok)];
      unfold bind; rewrite Hw; cbn [ret]; do 2 eexists;
      (split; [reflexivity|]); rewrite ?app_nil_r.
    + split; [rewrite Hrf, Hun; lia|]. split; [exact Hn|left; reflexivity].
    + split; [cbn; unfold held; cbn; lia|].
      split; [reflexivity|right; split; [exact Hok|reflexivity]].
Qed.

(** An invariant of the steps is an invariant of the runs, which end. *)
Lemma run_invariant (P : globals -> Prop) (ins : list input) :
  (forall i g g' tr, input_defined i -> P g -> step i g = Some (tt, g', tr) -> P g') ->
  Forall input_defined ins ->
  forall g, P g -> exists g' tr, run ins g = Some (tt, g', tr) /\ P g'.
Proof.
  intros Hstep Hins. induction Hins as [|i ins Hi Hins IH]; intros g Hg.
  - exists g, []. split; [reflexivity|exact Hg].
  - destruct (step_summary i g Hi) as (g1 & t1 & Hs & _).
    destruct (IH g1 (Hstep i g g1 t1 Hi Hg Hs)) as (g2 & t2 & Hr & Hg2).
    exists g2, (t1 ++ t2). split; [|exact Hg2].
    cbn [run]. unfold bind. rewrite Hs, Hr. reflexivity.
Qed.

Lemma run_cons (i : input) (ins : list input) (g g1 g2 : globals)
    (t1 t2 : list event) :
  step i g = Some (tt, g1, t1) -> run ins g1 = Some (tt, g2, t2) ->
  run (i :: ins) g = Some (tt, g2, t1 ++ t2).
Proof.
  intros Hs Hr. cbn [run]. unfold bind. rewrite Hs, Hr. reflexivity.
Qed.

End StepFacts.

(** ** Further properties of the range service and the sensor loop *)

Module RangeProperties.

Import CInt Zephyr Firmware RangeService RangeServiceRead Main Spec Runs.
Import BytesFacts ConfigFacts SensorFacts RunFacts BatterySamplerFacts StepFacts.

(** X1.  Whatever the payload and the offset, [write_config] either accepts,
    returning 8 and replacing the record, which happens exactly for an
    8-byte payload at offset 0 whose candidate satisfies the three rules, or
    returns a negative value and leaves every global as it was. *)
Theorem write_config_outcome (g : globals) (buf : list Byte.byte) (offset : Z) :
  0 <= offset ->
  let c := range_config_of_bytes buf in
  exists ret g' tr,
    write_config buf offset g = Some (ret, g', tr) /\
    ((ret = 8 /\ g' = set_active_config c g /\
      offset = 0 /\ length buf = 8%nat /\ config_ok c) \/
     (ret < 0 /\ g' = g /\
      ~ (offset = 0 /\ length buf = 8%nat /\ config_ok c))).
Proof.
  intros Hoff c.
  destruct (write_config_cases buf offset g)
    as [(code & tr & Hw & Hcode & _ & _ & _ & Hnot)|(Hw & Ho & Hlen & Hok)].
  - exists (BT_GATT_ERR code), g, tr. split; [exact Hw|]. right.
    split; [unfold BT_GATT_ERR; lia|]. split; [reflexivity|].
    intros (H0 & Hl & Hc). apply Hnot. split; [lia|split; assumption].
  - do 3 eexists. split; [exact Hw|]. left.
    split; [reflexivity|]. split; [reflexivity|].
    split; [lia|split; assumption].
Qed.

Lemma write_config_outcome_witness :
  let g := boot 100 100 in
  let buf := [Byte.x64; Byte.x00; Byte.x64; Byte.x00; Byte.xb0] in
  0 <= 3 /\
  exists ret g' tr,
    write_config buf 3 g = Some (ret, g', tr) /\
    ((ret = 8 /\ g' = set_active_config (range_config_of_bytes buf) g /\
      3 = 0 /\ length buf = 8%nat /\ config_ok (range_config_of_bytes buf)) \/
     (ret < 0 /\ g' = g /\
      ~ (3 = 0 /\ length buf = 8%nat /\ config_ok (range_config_of_bytes buf)))).
Proof.
  intros g buf. split; [lia|].
  apply (write_config_outcome g buf 3). lia.
Defined.

(** X2.  After an accepted write, [read_config] hands the stack's read
    helper exactly the eight bytes that were written. *)
Theorem read_config_returns_written_payload {R : Type}
    (bt_gatt_attr_read : Z -> Z -> list Byte.byte -> R)
    (g : globals) (buf : list Byte.byte) (len offset : Z) :
  length buf = 8%nat ->
  config_ok (range_config_of_bytes buf) ->
  let c := range_config_of_bytes buf in
  (write_config buf 0 ;; read_config bt_gatt_attr_read len offset) g =
  Some (bt_gatt_attr_read len offset buf, set_active_config c g,
        [Log LOG_INF (Config_updated (sample_interval_ms c)
           (notify_interval_ms c) (min_range_mm c) (max_range_mm c))]).
Proof.
  intros Hlen Hok c. unfold bind at 1.
  rewrite (write_config_accepts g buf Hlen Hok). fold c.
  unfold read_config. run_M. cbn [active_config set_active_config].
  unfold c. rewrite (bytes_of_range_config_of_bytes buf Hlen).
  rewrite app_nil_r. reflexivity.
Qed.

Lemma read_config_returns_written_payload_witness :
  let g := boot 100 100 in
  let buf := [Byte.xfa; Byte.x00; Byte.xe8; Byte.x03;
              Byte.xd0; Byte.x07; Byte.x32; Byte.x00] in
  length buf = 8%nat /\ config_ok (range_config_of_bytes buf) /\
  (write_config buf 0 ;; read_config (fun _ _ value => value) 8 0) g =
  Some (buf, set_active_config (range_config_of_bytes buf) g,
        [Log LOG_INF (Config_updated 250 1000 50 2000)]).
Proof.
  intros g buf.
  assert (Hok : config_ok (range_config_of_bytes buf))
    by (unfold config_ok; vm_compute; repeat split; discriminate).
  split; [reflexivity|]. split; [exact Hok|].
  exact (read_config_returns_written_payload (fun _ _ value => value)
           g buf 8 0 eq_refl Hok).
Defined.

(** X3.  If the two intervals of the build configuration are within
    [10,5000], the stored record satisfies the three rules of the write
    handler after every run of the firmware, and every run ends as long as
    no sensor reply overflows. *)
Theorem run_keeps_config_valid (sample_ms notify_ms : Z) (ins : list input) :
  10 <= sample_ms <= 5000 -> 10 <= notify_ms <= 5000 ->
  Forall input_defined ins ->
  exists g tr,
    run ins (boot sample_ms notify_ms) = Some (tt, g, tr) /\
    config_ok (active_config g).
Proof.
  intros Hs Hn Hins.
  apply (run_invariant (fun g => config_ok (active_config g))); [|exact Hins|].
  - intros i g g' tr Hi Hg Hstep.
    destruct (step_summary i g Hi) as (g1 & t1 & Hs1 & _ & Hcase).
    rewrite Hstep in Hs1. injection Hs1 as <- <-.
    destruct i; cbn beta iota in Hcase.
    + destruct Hcase as [[-> _]|(d & _ & _ & -> & _)]; exact Hg.
    + destruct Hcase as [-> _]. exact Hg.
    + destruct Hcase as [-> _]. destruct (err =? 0); exact Hg.
    + destruct Hcase as [-> _]. exact Hg.
    + destruct Hcase as [_ [->|[Hok ->]]]; [exact Hg|exact Hok].
  - unfold config_ok. cbn. lia.
Qed.

Lemma run_keeps_config_valid_witness :
  let ins := [In_write_config (bytes_of_range_config (mk_range_config 250 1000 2000 50)) 0;
              In_write_config (bytes_of_range_config (mk_range_config 5 1000 2000 50)) 0;
              In_sample (mk_sensor_reply 0 0 1 500000) 0] in
  10 <= 100 <= 5000 /\ 10 <= 200 <= 5000 /\ Forall input_defined ins /\
  exists g tr, run ins (boot 100 200) = Some (tt, g, tr) /\
               config_ok (active_config g).
Proof.
  intros ins.
  assert (Hins : Forall input_defined ins)
    by (repeat constructor; cbn; discriminate).
  split; [lia|]. split; [lia|]. split; [exact Hins|].
  apply (run_keeps_config_valid 100 200 ins); [lia|lia|exact Hins].
Defined.

(** X4.  After every run from boot the stored distance and the two bounds of
    the record fit 16 bits and the window is not empty; so the two bytes
    [read_range] hands to the stack read back, little-endian, as the stored
    distance. *)
Theorem run_distance_fits_u16 (sample_ms notify_ms : Z) (ins : list input) :
  Forall input_defined ins ->
  exists g tr,
    run ins (boot sample_ms notify_ms) = Some (tt, g, tr) /\
    is_u16 (current_range_mm g) /\
    is_u16 (min_range_mm (active_config g)) /\
    is_u16 (max_range_mm (active_config g)) /\
    min_range_mm (active_config g) < max_range_mm (active_config g) /\
    forall len offset,
      read_range (fun _ _ value => u16_at value 0) len offset g =
      Some (current_range_mm g, g, []).
Proof.
  intros Hins.
  set (P := fun g : globals =>
              is_u16 (current_range_mm g) /\
              is_u16 (min_range_mm (active_config g)) /\
              is_u16 (max_range_mm (active_config g)) /\
              min_range_mm (active_config g) < max_range_mm (active_config g)).
  destruct (run_invariant P ins) with (g := boot sample_ms notify_ms)
    as (g & tr & Hrun & Hc & Hmin & Hmax & Hw).
  - intros i g g' tr Hi HP Hstep.
    destruct (step_summary i g Hi) as (g1 & t1 & Hs1 & _ & Hcase).
    rewrite Hstep in Hs1. injection Hs1 as <- <-.
    destruct i; cbn beta iota in Hcase.
    + destruct Hcase as [[-> _]|(d & _ & _ & -> & _)]; [exact HP|].
      destruct HP as (Hc & Hmin & Hmax & Hw).
      unfold P. cbn [current_range_mm active_config set_current_range_mm].
      split; [|split; [exact Hmin|split; [exact Hmax|exact Hw]]].
      pose proof (Z.mod_pos_bound d 65536 ltac:(lia)) as Hd.
      unfold clamped_of, to_u16, is_u16 in *.
      destruct (d mod 65536 <? min_range_mm (active_config g));
        match goal with |- context [?a >? ?b] => destruct (a >? b) end; lia.
    + destruct Hcase as [-> _]. exact HP.
    + destruct Hcase as [-> _]. destruct (err =? 0); exact HP.
    + destruct Hcase as [-> _]. exact HP.
    + destruct Hcase as [_ [->|[Hok ->]]]; [exact HP|].
      destruct HP as (Hc & Hmin & Hmax & Hw).
      unfold P. cbn [current_range_mm active_config set_active_config].
      split; [exact Hc|]. split; [apply u16_at_range|].
      split; [apply u16_at_range|apply Hok].
  - exact Hins.
  - unfold P, is_u16. cbn. lia.
  - exists g, tr. split; [exact Hrun|]. split; [exact Hc|].
    split; [exact Hmin|]. split; [exact Hmax|]. split; [exact Hw|].
    intros len offset. unfold read_range. run_M.
    destruct (u16_bytes_val (current_range_mm g) Hc) as (lo & hi & Eb & Ev).
    rewrite Eb, u16_at_eq. cbn [nth]. rewrite Ev. reflexivity.
Qed.

Lemma run_distance_fits_u16_witness :
  let ins := [In_ccc_changed 1; In_sample (mk_sensor_reply 0 0 70 0) 0] in
  Forall input_defined ins /\
  exists g tr,
    run ins (boot 100 100) = Some (tt, g, tr) /\
    is_u16 (current_range_mm g) /\
    is_u16 (min_range_mm (active_config g)) /\
    is_u16 (max_range_mm (active_config g)) /\
    min_range_mm (active_config g) < max_range_mm (active_config g) /\
    forall len offset,
      read_range (fun _ _ value => u16_at value 0) len offset g =
      Some (current_range_mm g, g, []).
Proof.
  intros ins.
  assert (Hins : Forall input_defined ins)
    by (repeat constructor; cbn; discriminate).
  split; [exact Hins|].
  apply (run_distance_fits_u16 100 100 ins Hins).
Defined.

(** X5.  Each global has one writer: a turn of the sensor loop changes at
    most the stored distance, the subscription callback only the gate, the
    connection callbacks only the connection handle, and a configuration
    write only the record. *)
Theorem step_frame (i : input) (g : globals) :
  input_defined i ->
  exists g' tr,
    step i g = Some (tt, g', tr) /\
    match i with
    | In_sample _ _ =>
        active_config g' = active_config g /\
        range_notify_enabled g' = range_notify_enabled g /\
        current_conn g' = current_conn g
    | In_ccc_changed _ =>
        current_range_mm g' = current_range_mm g /\
        active_config g' = active_config g /\
        current_conn g' = current_conn g
    | In_connected _ _ | In_disconnected _ _ =>
        current_range_mm g' = current_range_mm g /\
        active_config g' = active_config g /\
        range_notify_enabled g' = range_notify_enabled g
    | In_write_config _ _ =>
        current_range_mm g' = current_range_mm g /\
        range_notify_enabled g' = range_notify_enabled g /\
        current_conn g' = current_conn g
    end.
Proof.
  intros Hi.
  destruct (step_summary i g Hi) as (g' & tr & Hs & _ & Hcase).
  exists g', tr. split; [exact Hs|].
  destruct i; cbn beta iota in Hcase.
  - destruct Hcase as [[-> _]|(d & _ & _ & -> & _)]; repeat split.
  - destruct Hcase as [-> _]. repeat split.
  - destruct Hcase as [-> _]. destruct (err =? 0); repeat split.
  - destruct Hcase as [-> _]. repeat split.
  - destruct Hcase as [_ [->|[_ ->]]]; repeat split.
Qed.

Lemma step_frame_witness :
  let g := mk_globals 700 (default_config 100 100) true (Some 1) in
  let i := In_write_config (bytes_of_range_config (mk_range_config 250 1000 2000 900)) 0 in
  input_defined i /\
  exists g' tr,
    step i g = Some (tt, g', tr) /\
    current_range_mm g' = 700 /\
    range_notify_enabled g' = true /\
    current_conn g' = Some 1.
Proof.
  intros g i. split; [exact I|].
  apply (step_frame i g). exact I.
Defined.

Lemma sensor_thread_iter_any_notify_ret (r : sensor_reply) (n1 n2 : Z)
    (g : globals) :
  sensor_thread_iter r n1 g = sensor_thread_iter r n2 g.
Proof.
  destruct (returned r) as [d|] eqn:Er.
  - destruct (Z.ltb_spec d 0) as [Hd|Hd].
    + rewrite !(sensor_thread_iter_error r _ g d Er Hd). reflexivity.
    + rewrite !(sensor_thread_iter_sample r _ g d Er Hd). reflexivity.
  - rewrite !sensor_thread_iter_undefined by exact Er. reflexivity.
Qed.

(** X6.  The sensor loop ignores what [bt_gatt_notify] answers: two runs of
    the loop over the same sensor replies end in the same globals with the
    same calls, whatever the pushes returned; a failed push is neither
    retried nor logged. *)
Theorem sensor_loop_ignores_notify_result
    (env1 env2 : list (sensor_reply * Z)) :
  map fst env1 = map fst env2 ->
  forall g : globals, sensor_thread_fn env1 g = sensor_thread_fn env2 g.
Proof.
  revert env2. induction env1 as [|[r1 n1] env1 IH]; intros [|[r2 n2] env2] Hm g;
    try discriminate Hm; [reflexivity|].
  cbn [map fst] in Hm. injection Hm as -> Hm.
  cbn [sensor_thread_fn]. unfold bind.
  rewrite (sensor_thread_iter_any_notify_ret r2 n1 n2 g).
  destruct (sensor_thread_iter r2 n2 g) as [[[[] g1] t1]|]; [|reflexivity].
  rewrite (IH env2 Hm g1). reflexivity.
Qed.

Lemma sensor_loop_ignores_notify_result_witness :
  let g := set_range_notify_enabled true (boot 100 100) in
  let r := mk_sensor_reply 0 0 0 700000 in
  map fst [(r, 0); (r, 0)] = map fst [(r, -128); (r, -12)] /\
  sensor_thread_fn [(r, 0); (r, 0)] g = sensor_thread_fn [(r, -128); (r, -12)] g.
Proof.
  intros g r. split; [reflexivity|].
  apply (sensor_loop_ignores_notify_result [(r, 0); (r, 0)] [(r, -128); (r, -12)]).
  reflexivity.
Defined.

(** X7.  [notify_interval_ms] is stored and validated but never read by the
    sensor loop: with another value of that field a turn makes the same
    calls, pushes included, and ends in the same globals up to that field. *)
Theorem sensor_loop_ignores_notify_interval
    (n : Z) (r : sensor_reply) (notify_ret : Z) (g : globals) :
  sensor_thread_iter r notify_ret (with_notify_interval n g) =
  match sensor_thread_iter r notify_ret g with
  | Some (u, g', tr) => Some (u, with_notify_interval n g', tr)
  | None => None
  end.
Proof.
  destruct (returned r) as [d|] eqn:Er.
  - destruct (Z.ltb_spec d 0) as [Hd|Hd].
    + rewrite !(sensor_thread_iter_error r _ _ d Er Hd). reflexivity.
    + rewrite !(sensor_thread_iter_sample r _ _ d Er Hd). reflexivity.
  - rewrite !sensor_thread_iter_undefined by exact Er. reflexivity.
Qed.

(** X8.  A configuration change takes effect on the next turn of the sensor
    loop: the turn that follows an accepted write clamps to the new window,
    stores a value inside it and sleeps for the new sample interval. *)
Theorem config_write_takes_effect_next_turn (g : globals)
    (buf : list Byte.byte) (r : sensor_reply) (notify_ret d : Z) :
  length buf = 8%nat ->
  config_ok (range_config_of_bytes buf) ->
  returned r = Some d -> 0 <= d ->
  let c := range_config_of_bytes buf in
  let v := clamped_of c (to_u16 d) in
  (write_config buf 0 ;; sensor_thread_iter r notify_ret) g =
    Some (tt, set_current_range_mm v (set_active_config c g),
          [Log LOG_INF (Config_updated (sample_interval_ms c)
             (notify_interval_ms c) (min_range_mm c) (max_range_mm c))] ++
          read_trace r ++
          (if range_notify_enabled g then [Gatt_notify v] else []) ++
          [Msleep (sample_interval_ms c)]) /\
  min_range_mm c <= v <= max_range_mm c.
Proof.
  intros Hlen Hok Hr Hd c v. split.
  - unfold bind. rewrite (write_config_accepts g buf Hlen Hok). fold c.
    rewrite (sensor_thread_iter_sample r notify_ret _ d Hr Hd). reflexivity.
  - apply clamped_of_window. destruct Hok as (_ & _ & Hm). fold c in Hm. lia.
Qed.

Lemma config_write_takes_effect_next_turn_witness :
  let g := set_range_notify_enabled true (boot 100 100) in
  let buf := bytes_of_range_config (mk_range_config 250 1000 2000 50) in
  let r := mk_sensor_reply 0 0 3 0 in
  length buf = 8%nat /\ config_ok (range_config_of_bytes buf) /\
  returned r = Some 3000 /\ 0 <= 3000 /\
  (write_config buf 0 ;; sensor_thread_iter r 0) g =
    Some (tt, mk_globals 2000 (mk_range_config 250 1000 2000 50) true None,
          [Log LOG_INF (Config_updated 250 1000 50 2000);
           Sensor_sample_fetch; Sensor_channel_get; Gatt_notify 2000;
           Msleep 250]).
Proof.
  intros g buf r.
  assert (Hok : config_ok (range_config_of_bytes buf))
    by (unfold config_ok; vm_compute; repeat split; discriminate).
  split; [reflexivity|]. split; [exact Hok|]. split; [reflexivity|].
  split; [lia|].
  exact (proj1 (config_write_takes_effect_next_turn g buf r 0 3000
                  eq_refl Hok eq_refl ltac:(lia))).
Defined.

Lemma run_conn_balance (ins : list input) :
  Forall input_defined ins ->
  forall g : globals,
  exists g' tr,
    run ins g = Some (tt, g', tr) /\
    (conn_unrefs tr + held g' <= conn_refs tr + held g)%nat.
Proof.
  induction 1 as [|i ins Hi Hins IH]; intros g.
  - exists g, []. split; [reflexivity|cbn; lia].
  - destruct (step_summary i g Hi) as (g1 & t1 & Hs & Hb1 & _).
    destruct (IH g1) as (g2 & t2 & Hr & Hb2).
    exists g2, (t1 ++ t2). split; [exact (run_cons i ins g g1 g2 t1 t2 Hs Hr)|].
    rewrite conn_refs_app, conn_unrefs_app. lia.
Qed.

(** X9.  Over every run from boot the firmware releases no more connection
    references than it took, and one of those taken is still held whenever
    [current_conn] is set. *)
Theorem run_conn_refs_balanced (sample_ms notify_ms : Z) (ins : list input) :
  Forall input_defined ins ->
  exists g tr,
    run ins (boot sample_ms notify_ms) = Some (tt, g, tr) /\
    (conn_unrefs tr + held g <= conn_refs tr)%nat.
Proof.
  intros Hins.
  destruct (run_conn_balance ins Hins (boot sample_ms notify_ms))
    as (g & tr & Hrun & Hb).
  exists g, tr. split; [exact Hrun|]. cbn in Hb. lia.
Qed.

Lemma run_conn_refs_balanced_witness :
  let ins := [In_disconnected 19 0; In_connected 7 0; In_connected 8 2;
              In_disconnected 19 (-5); In_disconnected 8 0; In_connected 9 0] in
  Forall input_defined ins /\
  exists g tr,
    run ins (boot 100 100) = Some (tt, g, tr) /\
    (conn_unrefs tr + held g <= conn_refs tr)%nat.
Proof.
  intros ins.
  assert (Hins : Forall input_defined ins) by (repeat constructor).
  split; [exact Hins|].
  apply (run_conn_refs_balanced 100 100 ins Hins).
Defined.

(** X10.  A connection followed by its disconnection takes one reference
    on the connection and releases that same reference, asks once for
    advertising, and leaves [current_conn] empty and the other globals as
    they were; a failed connection attempt takes no reference and changes
    nothing. *)
Theorem connect_disconnect_cycle (g : globals) (conn : bt_conn)
    (err reason adv_ret : Z) :
  (connected conn 0 ;; disconnected reason adv_ret) g =
    Some (tt, set_current_conn None g,
          [Log LOG_INF Connected; Conn_ref conn;
           Log LOG_INF (Disconnected reason); Conn_unref conn; Adv_start] ++
          (if adv_ret =? 0 then []
           else [Log LOG_ERR (Advertising_restart_failed adv_ret)])) /\
  (err <> 0 ->
   connected conn err g = Some (tt, g, [Log LOG_ERR (Connection_failed err)])).
Proof.
  split.
  - unfold bind. rewrite connected_runs, disconnected_runs.
    change (0 =? 0) with true. cbv iota.
    cbn [current_conn set_current_conn app]. destruct g; reflexivity.
  - intros Herr. rewrite connected_runs.
    replace (err =? 0) with false by (symmetry; apply Z.eqb_neq; exact Herr).
    reflexivity.
Qed.

Lemma connect_disconnect_cycle_witness :
  let g := boot 100 100 in
  2 <> 0 /\
  connected 7 2 g = Some (tt, g, [Log LOG_ERR (Connection_failed 2)]).
Proof.
  intros g. split; [lia|].
  apply (proj2 (connect_disconnect_cycle g 7 2 19 0)). lia.
Defined.

(** X11.  [read_range_mm] undoes the driver's encoding of a distance as
    whole metres and millionths: for every distance of [mm] millimetres that
    fits an [int], the value it returns is [mm], without overflow. *)
Theorem read_range_mm_inverts_encoding (mm : Z) (g : globals) :
  0 <= mm <= INT_MAX ->
  read_range_mm (sensor_value_of_mm mm) g =
  Some (mm, g, [Sensor_sample_fetch; Sensor_channel_get]).
Proof.
  intros Hmm. rewrite read_range_mm_returns.
  unfold returned, read_trace, sensor_value_of_mm.
  cbn [fetch_ret get_ret val1 val2].
  change (0 <? 0) with false. cbv iota.
  assert (Hq : 0 <= mm / 1000 * 1000 <= mm)
    by (Z.to_euclidean_division_equations; lia).
  assert (Hr : 0 <= mm mod 1000 < 1000) by (apply Z.mod_pos_bound; lia).
  unfold INT_MAX in Hmm.
  unfold mul, div, add.
  rewrite chk_in_int by (unfold INT_MIN, INT_MAX; lia). cbn [and_then].
  change (1000 =? 0) with false. cbv iota.
  rewrite Z.quot_div_nonneg by lia. rewrite Z.div_mul by lia.
  rewrite chk_in_int by (unfold INT_MIN, INT_MAX; lia). cbn [and_then].
  replace (mm / 1000 * 1000 + mm mod 1000) with mm
    by (Z.to_euclidean_division_equations; lia).
  rewrite chk_in_int by (unfold INT_MIN, INT_MAX; lia). reflexivity.
Qed.

Lemma read_range_mm_inverts_encoding_witness :
  0 <= 2147483647 <= INT_MAX /\
  read_range_mm (sensor_value_of_mm 2147483647) (boot 100 100) =
  Some (2147483647, boot 100 100, [Sensor_sample_fetch; Sensor_channel_get]).
Proof.
  split; [unfold INT_MAX; lia|].
  apply (read_range_mm_inverts_encoding 2147483647 (boot 100 100)).
  unfold INT_MAX. lia.
Defined.

(** X12.  For a raw distance that fits 16 bits the loop stores, and pushes
    when the gate is open, exactly the distance clamped to the window of the
    record: the lower bound below it, the upper bound above it, the distance
    itself inside it. *)
Theorem sample_stores_clamp_below_65536 (g g0 : globals) (r : sensor_reply)
    (notify_ret d : Z) (tr0 : list event) :
  read_range_mm r g = Some (d, g0, tr0) ->
  0 <= d < 65536 ->
  min_range_mm (active_config g) <= max_range_mm (active_config g) ->
  let v := clamp (min_range_mm (active_config g))
                 (max_range_mm (active_config g)) d in
  sensor_thread_iter r notify_ret g =
  Some (tt, set_current_range_mm v g,
        tr0 ++ (if range_notify_enabled g then [Gatt_notify v] else []) ++
        [Msleep (sample_interval_ms (active_config g))]).
Proof.
  intros Hread Hd Hw v.
  apply read_range_mm_inv in Hread. destruct Hread as (Hr & _ & ->).
  rewrite (sensor_thread_iter_sample r notify_ret g d Hr) by lia.
  rewrite (clamped_of_clamp (active_config g) d Hd Hw). reflexivity.
Qed.

Lemma sample_stores_clamp_below_65536_witness :
  let g := set_range_notify_enabled true (boot 100 100) in
  let r := sensor_value_of_mm 65535 in
  let tr0 := [Sensor_sample_fetch; Sensor_channel_get] in
  read_range_mm r g = Some (65535, g, tr0) /\
  0 <= 65535 < 65536 /\
  min_range_mm (active_config g) <= max_range_mm (active_config g) /\
  sensor_thread_iter r 0 g =
  Some (tt, set_current_range_mm 1200 g,
        tr0 ++ [Gatt_notify 1200] ++ [Msleep 100]).
Proof.
  intros g r tr0.
  split; [reflexivity|]. split; [lia|]. split; [cbn; lia|].
  apply (sample_stores_clamp_below_65536 g g r 0 65535 tr0);
    [reflexivity|lia|cbn; lia].
Defined.

Lemma run_pushes_window (ins : list input) :
  Forall input_defined ins ->
  forallb (fun i => negb (is_write i)) ins = true ->
  forall g : globals,
    min_range_mm (active_config g) <= max_range_mm (active_config g) ->
    exists g' tr,
      run ins g = Some (tt, g', tr) /\
      active_config g' = active_config g /\
      Forall (fun v => min_range_mm (active_config g) <= v
                       <= max_range_mm (active_config g)) (notified tr).
Proof.
  induction 1 as [|i ins Hi Hins IH]; intros Hnw g Hw.
  - exists g, []. repeat split. constructor.
  - cbn [forallb] in Hnw. apply andb_true_iff in Hnw. destruct Hnw as [Hi' Hnw].
    destruct (step_summary i g Hi) as (g1 & t1 & Hs & _ & Hcase).
    assert (Hcfg : active_config g1 = active_config g /\
                   Forall (fun v => min_range_mm (active_config g) <= v
                             <= max_range_mm (active_config g)) (notified t1)).
    { destruct i; cbn beta iota in Hcase; try discriminate Hi'.
      - destruct Hcase as [[-> ->]|(d & _ & _ & -> & ->)];
          [split; [reflexivity|constructor]|].
        split; [reflexivity|].
        destruct (range_notify_enabled g); repeat constructor;
          apply clamped_of_window; exact Hw.
      - destruct Hcase as [-> ->]. split; [reflexivity|constructor].
      - destruct Hcase as [-> ->].
        destruct (err =? 0); split; try reflexivity; constructor.
      - destruct Hcase as [-> ->]. split; [reflexivity|constructor]. }
    destruct Hcfg as [Hc1 Hn1].
    destruct (IH Hnw g1) as (g2 & t2 & Hr & Hc2 & Hn2); [rewrite Hc1; exact Hw|].
    exists g2, (t1 ++ t2).
    split; [exact (run_cons i ins g g1 g2 t1 t2 Hs Hr)|].
    split; [congruence|].
    rewrite notified_app. apply Forall_app. split; [exact Hn1|].
    rewrite Hc1 in Hn2. exact Hn2.
Qed.

(** X13.  As long as no configuration write arrives, every value the
    firmware pushes to the subscriber lies in the window of the record,
    whatever the sensor replies, subscriptions and connection events of the
    run. *)
Theorem run_pushes_in_window (ins : list input) (g : globals) :
  Forall input_defined ins ->
  forallb (fun i => negb (is_write i)) ins = true ->
  min_range_mm (active_config g) <= max_range_mm (active_config g) ->
  exists g' tr,
    run ins g = Some (tt, g', tr) /\
    active_config g' = active_config g /\
    Forall (fun v => min_range_mm (active_config g) <= v
                     <= max_range_mm (active_config g)) (notified tr).
Proof.
  intros Hins Hnw Hw. apply run_pushes_window; assumption.
Qed.

Lemma run_pushes_in_window_witness :
  let g := boot 100 100 in
  let ins := [In_ccc_changed 1; In_sample (mk_sensor_reply 0 0 65 566000) 0;
              In_sample (mk_sensor_reply 0 0 0 5000) (-128);
              In_disconnected 19 0; In_sample (mk_sensor_reply 0 0 9 0) 0] in
  Forall input_defined ins /\
  forallb (fun i => negb (is_write i)) ins = true /\
  min_range_mm (active_config g) <= max_range_mm (active_config g) /\
  exists g' tr,
    run ins g = Some (tt, g', tr) /\
    active_config g' = active_config g /\
    Forall (fun v => min_range_mm (active_config g) <= v
                     <= max_range_mm (active_config g)) (notified tr).
Proof.
  intros g ins.
  assert (Hins : Forall input_defined ins)
    by (repeat constructor; cbn; discriminate).
  split; [exact Hins|]. split; [reflexivity|]. split; [cbn; lia|].
  apply (run_pushes_in_window ins g Hins); [reflexivity|cbn; lia].
Defined.

(** X14.  The subscription callback opens the gate for the value
    [BT_GATT_CCC_NOTIFY] (1) only: after it the next successful sample is
    pushed exactly when the value written was 1; any other value, 0
    (unsubscribe), 2 (indications) or 3 (both bits) among them, closes the
    gate. *)
Theorem ccc_changed_gates_next_sample (g : globals) (value : Z)
    (r : sensor_reply) (notify_ret d : Z) :
  returned r = Some d -> 0 <= d ->
  let v := clamped_of (active_config g) (to_u16 d) in
  exists g' tr,
    (range_ccc_changed value ;; sensor_thread_iter r notify_ret) g
      = Some (tt, g', tr) /\
    current_range_mm g' = v /\
    range_notify_enabled g' = (value =? 1) /\
    notified tr = if value =? 1 then [v] else [].
Proof.
  intros Hr Hd v. unfold bind. rewrite range_ccc_changed_runs.
  rewrite (sensor_thread_iter_sample r notify_ret _ d Hr Hd).
  do 2 eexists. split; [reflexivity|].
  cbn [current_range_mm range_notify_enabled active_config
       set_current_range_mm set_range_notify_enabled].
  split; [reflexivity|]. split; [reflexivity|].
  cbn [app notified]. rewrite !notified_app, read_trace_notified.
  change BT_GATT_CCC_NOTIFY with 1.
  destruct (value =? 1); reflexivity.
Qed.

Lemma ccc_changed_gates_next_sample_witness :
  let g := set_range_notify_enabled true (boot 100 100) in
  let r := mk_sensor_reply 0 0 0 700000 in
  returned r = Some 700 /\ 0 <= 700 /\
  exists g' tr,
    (range_ccc_changed 3 ;; sensor_thread_iter r 0) g = Some (tt, g', tr) /\
    current_range_mm g' = 700 /\
    range_notify_enabled g' = false /\
    notified tr = [].
Proof.
  intros g r. split; [reflexivity|]. split; [lia|].
  apply (ccc_changed_gates_next_sample g 3 r 0 700); [reflexivity|lia].
Defined.

(** X15.  In every state the firmware reaches from boot, a turn of the
    sensor loop whose read succeeds stores a value inside the window of the
    record in effect, whatever the raw distance. *)
Theorem reachable_sample_in_window (sample_ms notify_ms : Z) (ins : list input)
    (g : globals) (tr : list event) (r : sensor_reply) (notify_ret d : Z) :
  run ins (boot sample_ms notify_ms) = Some (tt, g, tr) ->
  returned r = Some d -> 0 <= d ->
  exists g' tr',
    sensor_thread_iter r notify_ret g = Some (tt, g', tr') /\
    min_range_mm (active_config g) <= current_range_mm g'
      <= max_range_mm (active_config g).
Proof.
  intros Hrun Hr Hd.
  pose proof (run_window ins _ _ _ (boot_window sample_ms notify_ms) Hrun) as Hw.
  do 2 eexists. split; [apply (sensor_thread_iter_sample r notify_ret g d Hr Hd)|].
  cbn [current_range_mm set_current_range_mm].
  apply clamped_of_window. lia.
Qed.

Lemma reachable_sample_in_window_witness :
  let ins := [In_write_config (bytes_of_range_config (mk_range_config 250 1000 2000 50)) 0] in
  let g := set_active_config (mk_range_config 250 1000 2000 50) (boot 100 100) in
  let r := mk_sensor_reply 0 0 65 566000 in
  run ins (boot 100 100) =
    Some (tt, g, [Log LOG_INF (Config_updated 250 1000 50 2000)]) /\
  returned r = Some 65566 /\ 0 <= 65566 /\
  exists g' tr',
    sensor_thread_iter r 0 g = Some (tt, g', tr') /\
    min_range_mm (active_config g) <= current_range_mm g'
      <= max_range_mm (active_config g).
Proof.
  intros ins g r.
  split; [reflexivity|]. split; [reflexivity|]. split; [lia|].
  apply (reachable_sample_in_window 100 100 ins g
           [Log LOG_INF (Config_updated 250 1000 50 2000)] r 0 65566);
    [reflexivity|reflexivity|lia].
Defined.

End RangeProperties.

(** ** Properties of the battery sampler and of start-up *)

Module SamplerProperties.

Import CInt Firmware Battery BatteryAdc MainBoot BatteryFacts BatterySamplerFacts.

(** X16.  For every 16-bit sample the ADC can leave in the buffer,
    [battery_read_mv] does not overflow: a failed read returns the driver's
    negative code unchanged, and a successful one returns
    [max(0, raw) * 7200 / 4096] millivolts, between 0 and 57598 and positive
    exactly when the sample is positive. *)
Theorem battery_read_mv_scales (a : adc_reply) :
  -32768 <= adc_buffer a <= 32767 ->
  let mv := Z.max 0 (adc_buffer a) * 7200 / 4096 in
  battery_read_mv a =
    Some (if adc_ret a <? 0 then adc_ret a else mv,
          if adc_ret a <? 0
          then [Adc_read; Battery_log_err (Adc_read_failed (adc_ret a))]
          else [Adc_read]) /\
  0 <= mv <= 57598 /\
  (0 < mv <-> 1 <= adc_buffer a).
Proof.
  intros H mv. split; [apply battery_read_mv_value; exact H|].
  apply scaled_bounds. exact H.
Qed.

Lemma battery_read_mv_scales_witness :
  let a := mk_adc_reply 0 2276 in
  -32768 <= adc_buffer a <= 32767 /\
  battery_read_mv a = Some (4000, [Adc_read]).
Proof.
  intros a. split; [cbn; lia|].
  exact (proj1 (battery_read_mv_scales a ltac:(cbn; lia))).
Defined.

(** X17.  A turn of the battery thread hands the Battery Service one level,
    the curve's value for the millivolts read, exactly when the ADC read
    succeeded and the sample is positive; on a failed read or a sample of 0
    or less it hands none.  Either way the turn ends with the sleep of the
    configured period, and the level is between 0 and 100. *)
Theorem battery_thread_publishes (interval_s : Z) (a : adc_reply) :
  -32768 <= adc_buffer a <= 32767 ->
  exists tr,
    battery_thread_iter interval_s a = Some (tr ++ [Sleep_seconds interval_s]) /\
    levels (tr ++ [Sleep_seconds interval_s]) =
      (if (0 <=? adc_ret a) && (1 <=? adc_buffer a)
       then [voltage_to_percent_table (adc_buffer a * 7200 / 4096)]
       else []) /\
    Forall (fun p => 0 <= p <= 100) (levels (tr ++ [Sleep_seconds interval_s])).
Proof.
  intros H. rewrite (battery_thread_iter_value interval_s a H).
  pose proof (table_bounds (adc_buffer a * 7200 / 4096)) as Hb.
  destruct (Z.ltb_spec (adc_ret a) 0) as [Hr|Hr].
  - replace (0 <=? adc_ret a) with false by (symmetry; apply Z.leb_gt; lia).
    eexists [_; _]. repeat split. constructor.
  - replace (0 <=? adc_ret a) with true by (symmetry; apply Z.leb_le; lia).
    destruct (1 <=? adc_buffer a).
    + eexists [_; _; _]. split; [reflexivity|]. split; [reflexivity|].
      repeat constructor; lia.
    + eexists [_]. repeat split. constructor.
Qed.

Lemma battery_thread_publishes_witness :
  let a := mk_adc_reply 0 2105 in
  -32768 <= adc_buffer a <= 32767 /\
  exists tr,
    battery_thread_iter 60 a = Some (tr ++ [Sleep_seconds 60]) /\
    levels (tr ++ [Sleep_seconds 60]) = [35] /\
    Forall (fun p => 0 <= p <= 100) (levels (tr ++ [Sleep_seconds 60])).
Proof.
  intros a. split; [cbn; lia|].
  apply (battery_thread_publishes 60 a). cbn; lia.
Defined.

(** X18.  Over any run of the battery thread every level handed to the
    Battery Service is between 0 and 100, there is at most one per turn, and
    the run never overflows. *)
Theorem battery_thread_fn_levels_bounded (interval_s : Z) (env : list adc_reply) :
  Forall (fun a => -32768 <= adc_buffer a <= 32767) env ->
  exists tr,
    battery_thread_fn interval_s env = Some tr /\
    Forall (fun p => 0 <= p <= 100) (levels tr) /\
    (length (levels tr) <= length env)%nat.
Proof.
  induction 1 as [|a env Ha Henv IH].
  - exists []. repeat split; constructor.
  - destruct IH as (tr' & Hrun & Hb & Hlen).
    destruct (battery_thread_publishes interval_s a Ha) as (t & Hit & Hl & Hbt).
    cbn [battery_thread_fn]. rewrite Hit, Hrun. eexists. split; [reflexivity|].
    rewrite levels_app. split; [apply Forall_app; split; assumption|].
    rewrite length_app, Hl. cbn [length].
    destruct ((0 <=? adc_ret a) && (1 <=? adc_buffer a)); cbn [length]; lia.
Qed.

Lemma battery_thread_fn_levels_bounded_witness :
  let env := [mk_adc_reply 0 4095; mk_adc_reply (-5) 0; mk_adc_reply 0 (-3);
              mk_adc_reply 0 1500; mk_adc_reply 0 32767] in
  Forall (fun a => -32768 <= adc_buffer a <= 32767) env /\
  exists tr,
    battery_thread_fn 60 env = Some tr /\
    Forall (fun p => 0 <= p <= 100) (levels tr) /\
    (length (levels tr) <= length env)%nat.
Proof.
  intros env.
  assert (Henv : Forall (fun a => -32768 <= adc_buffer a <= 32767) env)
    by (repeat constructor; cbn; lia).
  split; [exact Henv|].
  apply (battery_thread_fn_levels_bounded 60 env Henv).
Defined.

(** X19.  From the raw sample to the published level the battery path is
    monotone: of two successful reads the one with the larger positive
    sample publishes a level at least as high.  The level is 100 exactly
    from the sample 2390 up and 0 exactly up to the sample 1885. *)
Theorem battery_level_monotone_in_raw (interval_s : Z) (a1 a2 : adc_reply) :
  0 <= adc_ret a1 -> 0 <= adc_ret a2 ->
  1 <= adc_buffer a1 -> adc_buffer a1 <= adc_buffer a2 ->
  adc_buffer a2 <= 32767 ->
  exists t1 t2 p1 p2,
    battery_thread_iter interval_s a1 = Some t1 /\ levels t1 = [p1] /\
    battery_thread_iter interval_s a2 = Some t2 /\ levels t2 = [p2] /\
    p1 <= p2 /\
    (p1 = 100 <-> 2390 <= adc_buffer a1) /\
    (p1 = 0 <-> adc_buffer a1 <= 1885).
Proof.
  intros Hr1 Hr2 H1 H12 H2.
  rewrite (battery_thread_iter_value interval_s a1) by lia.
  rewrite (battery_thread_iter_value interval_s a2) by lia.
  replace (adc_ret a1 <? 0) with false by (symmetry; apply Z.ltb_ge; lia).
  replace (adc_ret a2 <? 0) with false by (symmetry; apply Z.ltb_ge; lia).
  replace (1 <=? adc_buffer a1) with true by (symmetry; apply Z.leb_le; lia).
  replace (1 <=? adc_buffer a2) with true by (symmetry; apply Z.leb_le; lia).
  do 4 eexists. split; [reflexivity|]. split; [reflexivity|].
  split; [reflexivity|]. split; [reflexivity|].
  set (m1 := adc_buffer a1 * 7200 / 4096).
  assert (Hm1 : 4096 * m1 <= adc_buffer a1 * 7200 < 4096 * (m1 + 1))
    by (unfold m1; Z.to_euclidean_division_equations; lia).
  split.
  - apply table_monotone. apply Z.div_le_mono; lia.
  - clearbody m1. by_segments m1; Z.to_euclidean_division_equations; lia.
Qed.

Lemma battery_level_monotone_in_raw_witness :
  let a1 := mk_adc_reply 0 1885 in
  let a2 := mk_adc_reply 0 2390 in
  0 <= adc_ret a1 /\ 0 <= adc_ret a2 /\ 1 <= adc_buffer a1 /\
  adc_buffer a1 <= adc_buffer a2 /\ adc_buffer a2 <= 32767 /\
  exists t1 t2 p1 p2,
    battery_thread_iter 60 a1 = Some t1 /\ levels t1 = [p1] /\
    battery_thread_iter 60 a2 = Some t2 /\ levels t2 = [p2] /\
    p1 <= p2 /\
    (p1 = 100 <-> 2390 <= adc_buffer a1) /\
    (p1 = 0 <-> adc_buffer a1 <= 1885).
Proof.
  intros a1 a2. cbn [adc_ret adc_buffer a1 a2].
  split; [lia|]. split; [lia|]. split; [lia|]. split; [lia|]. split; [lia|].
  apply (battery_level_monotone_in_raw 60 a1 a2); cbn; lia.
Defined.

Lemma spawned_app (t1 t2 : list main_event) :
  spawned (t1 ++ t2) = spawned t1 ++ spawned t2.
Proof.
  induction t1 as [|e t1 IH]; [reflexivity|].
  destruct e; cbn [app spawned]; rewrite IH; reflexivity.
Qed.

Lemma count_event_app (p : main_event -> bool) (t1 t2 : list main_event) :
  count_event p (t1 ++ t2) = (count_event p t1 + count_event p t2)%nat.
Proof.
  induction t1 as [|e t1 IH]; [reflexivity|].
  cbn [app count_event]. rewrite IH. destruct (p e); reflexivity.
Qed.

Lemma battery_init_quiet (ready : bool) (setup_ret : Z) :
  let tb := map In_battery_init (snd (battery_init ready setup_ret)) in
  spawned tb = [] /\ count_event is_bt_enable tb = O /\
  count_event is_adv_start tb = O.
Proof.
  unfold battery_init. destruct ready; cbn [negb]; [|repeat split].
  destruct (setup_ret <? 0); repeat split.
Qed.

(** [main] with the part of [battery_init] set apart. *)
Lemma main_unfold (e : main_env) :
  main e =
  if negb (sensor_ready e) then
    (- ENODEV,
     [Main_log LOG_INF Starting; Device_is_ready_range_sensor;
      Main_log LOG_ERR Sensor_not_ready])
  else
    let b := battery_init (adc_ready e) (adc_setup_ret e) in
    let t3 := [Main_log LOG_INF Starting; Device_is_ready_range_sensor;
               Main_log LOG_INF Sensor_ready] ++
              map In_battery_init (snd b) ++
              (if negb (fst b =? 0)
               then [Main_log LOG_WRN (Battery_init_failed (fst b))] else []) ++
              [Main_log LOG_INF Range_service_initialized; Bt_enable] in
    if negb (bt_enable_ret e =? 0) then
      (bt_enable_ret e,
       t3 ++ [Main_log LOG_ERR (Bluetooth_init_failed (bt_enable_ret e))])
    else if negb (adv_start_ret e =? 0) then
      (adv_start_ret e,
       t3 ++ [Main_log LOG_INF Bluetooth_initialized; Main_adv_start;
              Main_log LOG_ERR (Advertising_failed (adv_start_ret e))])
    else
      (0, t3 ++ [Main_log LOG_INF Bluetooth_initialized; Main_adv_start;
                 Main_log LOG_INF Advertising_as_device_name;
                 Thread_create Sensor_thread 2048 (K_PRIO_COOP 7);
                 Thread_name_set Sensor_thread;
                 Thread_create Battery_thread 1024 (K_PRIO_PREEMPT 10);
                 Thread_name_set Battery_thread;
                 Main_log LOG_INF Running]).
Proof.
  unfold main. destruct (negb (sensor_ready e)); [reflexivity|].
  destruct (battery_init (adc_ready e) (adc_setup_ret e)) as [err tb].
  cbn [fst snd range_service_init]. change (negb (0 =? 0)) with false. cbv iota zeta.
  destruct (negb (bt_enable_ret e =? 0)).
  { f_equal. rewrite <- !app_assoc. reflexivity. }
  destruct (negb (adv_start_ret e =? 0)); f_equal;
    rewrite <- !app_assoc; reflexivity.
Qed.

(** X20.  [main] creates the two threads, the sensor thread first, and
    returns 0 exactly when the range sensor is ready and both [bt_enable]
    and the start of advertising answer 0; otherwise it creates no thread
    and returns a value other than 0.  What [battery_init] answers plays no
    part: the firmware starts without a working battery ADC. *)
Theorem main_spawns_threads_iff_ready (e : main_env) :
  let ok := sensor_ready e && (bt_enable_ret e =? 0) && (adv_start_ret e =? 0) in
  spawned (snd (main e)) = (if ok then [Sensor_thread; Battery_thread] else []) /\
  (fst (main e) = 0 <-> ok = true).
Proof.
  intros ok. unfold ok. rewrite main_unfold.
  destruct (sensor_ready e); cbn [negb andb];
    [|split; [reflexivity|split; [discriminate|discriminate]]].
  cbv zeta.
  destruct (battery_init_quiet (adc_ready e) (adc_setup_ret e)) as (Hq & _ & _).
  cbv zeta in Hq.
  destruct (Z.eqb_spec (bt_enable_ret e) 0) as [Hb|Hb]; cbn [negb andb].
  - destruct (Z.eqb_spec (adv_start_ret e) 0) as [Ha|Ha]; cbn [negb fst snd];
      (split; [rewrite !spawned_app, Hq;
               destruct (negb (fst (battery_init (adc_ready e) (adc_setup_ret e)) =? 0));
               reflexivity|]).
    + split; reflexivity.
    + split; [intros H; contradiction|discriminate].
  - cbn [fst snd]. split.
    + rewrite !spawned_app, Hq.
      destruct (negb (fst (battery_init (adc_ready e) (adc_setup_ret e)) =? 0));
        reflexivity.
    + split; [intros H; contradiction|discriminate].
Qed.

Lemma main_spawns_threads_iff_ready_witness :
  let e := mk_main_env true false 0 0 0 in
  spawned (snd (main e)) = [Sensor_thread; Battery_thread] /\
  fst (main e) = 0.
Proof.
  intros e.
  destruct (main_spawns_threads_iff_ready e) as [Hs [_ Hr]].
  split; [exact Hs|apply Hr; reflexivity].
Defined.

(** X21.  [main] asks for Bluetooth at most once and only when the range
    sensor is ready, and starts advertising at most once and only after
    [bt_enable] answered 0; with a sensor that is not ready it returns
    [-ENODEV] having touched neither. *)
Theorem main_gates_bluetooth (e : main_env) :
  count_event is_bt_enable (snd (main e)) =
    (if sensor_ready e then 1%nat else 0%nat) /\
  count_event is_adv_start (snd (main e)) =
    (if sensor_ready e && (bt_enable_ret e =? 0) then 1%nat else 0%nat) /\
  (sensor_ready e = false -> fst (main e) = -19).
Proof.
  rewrite main_unfold.
  destruct (sensor_ready e); cbn [negb andb];
    [|repeat split].
  cbv zeta.
  destruct (battery_init_quiet (adc_ready e) (adc_setup_ret e)) as (_ & Hb & Ha).
  cbv zeta in Hb, Ha.
  split; [|split; [|discriminate]].
  - destruct (bt_enable_ret e =? 0); cbn [negb];
      [destruct (adv_start_ret e =? 0); cbn [negb]|]; cbn [snd];
      rewrite !count_event_app, Hb;
      destruct (negb (fst (battery_init (adc_ready e) (adc_setup_ret e)) =? 0));
      reflexivity.
  - destruct (bt_enable_ret e =? 0); cbn [negb];
      [destruct (adv_start_ret e =? 0); cbn [negb]|]; cbn [snd];
      rewrite !count_event_app, Ha;
      destruct (negb (fst (battery_init (adc_ready e) (adc_setup_ret e)) =? 0));
      reflexivity.
Qed.

Lemma main_gates_bluetooth_witness :
  let e := mk_main_env false true 0 0 0 in
  sensor_ready e = false /\ fst (main e) = -19 /\
  count_event is_bt_enable (snd (main e)) = O /\
  count_event is_adv_start (snd (main e)) = O.
Proof.
  intros e.
  destruct (main_gates_bluetooth e) as (Hb & Ha & Hr).
  split; [reflexivity|]. split; [apply Hr; reflexivity|].
  split; [exact Hb|exact Ha].
Defined.

End SamplerProperties.

(** ** Series of configuration writes and the byte image of the record *)

Module ConfigProperties.

Import CInt Zephyr Firmware RangeService Main Spec Runs.
Import BytesFacts ConfigFacts StepFacts.

Lemma acceptable_spec (buf : list Byte.byte) :
  acceptable buf = true <->
  length buf = 8%nat /\ config_ok (range_config_of_bytes buf).
Proof.
  unfold acceptable, config_ok. set (c := range_config_of_bytes buf).
  rewrite !andb_true_iff, !negb_true_iff, !orb_false_iff, Nat.eqb_eq.
  rewrite !Z.gtb_ltb, Z.geb_leb, !Z.ltb_ge, Z.leb_gt. tauto.
Qed.

Lemma set_active_config_same (g : globals) :
  set_active_config (active_config g) g = g.
Proof. destruct g; reflexivity. Qed.

(** X22.  The last accepted write wins: after any series of writes at offset
    0 the stored record is the candidate of the last payload that was 8
    bytes long and passed the three rules, or the record from before if there
    was none; rejected writes in between leave no trace in the record, and
    nothing else changes. *)
Theorem last_accepted_write_wins (bufs : list (list Byte.byte)) (g : globals) :
  exists tr,
    run (map (fun buf => In_write_config buf 0) bufs) g =
    Some (tt, set_active_config (last_accepted (active_config g) bufs) g, tr).
Proof.
  revert g. induction bufs as [|buf bufs IH]; intros g.
  - exists []. cbn. rewrite set_active_config_same. reflexivity.
  - cbn [map last_accepted].
    destruct (write_config_cases buf 0 g)
      as [(code & tr & Hw & _ & _ & _ & _ & Hnot)|(Hw & _ & Hlen & Hok)].
    + assert (Ha : acceptable buf = false).
      { destruct (acceptable buf) eqn:E; [|reflexivity].
        apply acceptable_spec in E. exfalso. apply Hnot.
        split; [lia|exact E]. }
      rewrite Ha. destruct (IH g) as [tr' Hrun]. eexists.
      apply (run_cons _ _ g g _ tr tr'); [|exact Hrun].
      cbn [step]. unfold bind. rewrite Hw. cbn [ret]. rewrite app_nil_r.
      reflexivity.
    + assert (Ha : acceptable buf = true)
        by (apply acceptable_spec; split; assumption).
      rewrite Ha.
      destruct (IH (set_active_config (range_config_of_bytes buf) g)) as [tr' Hrun].
      cbn [active_config set_active_config] in Hrun. eexists.
      eapply run_cons; [|exact Hrun].
      cbn [step]. unfold bind. rewrite Hw. cbn [ret]. reflexivity.
Qed.

(** X23.  The byte image of the record round-trips: the 8-byte
    little-endian image of a record with 16-bit fields reads back as that
    record, and the image of the record read from an 8-byte payload is the
    payload, byte for byte; the fields read from any payload fit 16 bits. *)
Theorem config_bytes_round_trip (c : range_config) (buf : list Byte.byte) :
  config_wf c -> length buf = 8%nat ->
  length (bytes_of_range_config c) = 8%nat /\
  range_config_of_bytes (bytes_of_range_config c) = c /\
  bytes_of_range_config (range_config_of_bytes buf) = buf /\
  config_wf (range_config_of_bytes buf).
Proof.
  intros Hwf Hlen. split; [reflexivity|].
  split; [apply range_config_of_bytes_of_range_config; exact Hwf|].
  split; [apply bytes_of_range_config_of_bytes; exact Hlen|].
  repeat split; apply u16_at_range.
Qed.

Lemma config_bytes_round_trip_witness :
  let c := mk_range_config 250 1000 65535 0 in
  let buf := [Byte.xff; Byte.xff; Byte.x00; Byte.x00;
              Byte.x34; Byte.x12; Byte.x80; Byte.x7f] in
  config_wf c /\ length buf = 8%nat /\
  range_config_of_bytes (bytes_of_range_config c) = c /\
  bytes_of_range_config (range_config_of_bytes buf) = buf /\
  range_config_of_bytes buf = mk_range_config 65535 0 4660 32640.
Proof.
  intros c buf.
  assert (Hwf : config_wf c) by (unfold config_wf, is_u16; cbn; lia).
  destruct (config_bytes_round_trip c buf Hwf eq_refl) as (_ & H1 & H2 & _).
  split; [exact Hwf|]. split; [reflexivity|]. split; [exact H1|].
  split; [exact H2|reflexivity].
Defined.

End ConfigProperties.
